(** * contextualLSTM: the batching pipeline and the epoch driver of
      [src/lstm/lstm_frag.py]

    The development embeds the generator [generate_arrays_from_list], the
    epoch loop [run_epoch], the estimator [get_epoch_size] and the
    configuration phase of [main], and states the properties of the windowing
    pipeline and of the recurrent-state threading over these definitions.

    Conventions.
    - Sizes ([batch_size], [num_steps], [embedding_size], lengths, column
      offsets) are [nat]; token ids, [vocab_size] and [epoch_size] are Python
      integers, [Z].
    - The float-valued hyper-parameters ([init_scale], [learning_rate],
      [keep_prob], [lr_decay]) are read by the compute engine only and are not
      part of the configuration record.
    - A corpus file is represented by the list of integer ids that
      [VectorManager.parse_into_list] returns for it.
    - Python exceptions are values of [exn]; a computation that may raise has
      type [result A = exn + A].
    - Embedding vectors are lists over an arbitrary type [scalar]: the pipeline
      only moves them around, it performs no arithmetic on them. *)

From stdpp Require Import gmap list strings.
From Stdlib Require Import ZArith Lia.

Inductive exn : Type :=
  | ZeroDivisionError
  | ValueError
  | KeyError
  | IndexError.

Definition result (A : Type) : Type := (exn + A)%type.

Definition raise {A : Type} (e : exn) : result A := inl e.
Definition ret {A : Type} (a : A) : result A := inr a.

Definition bind {A B : Type} (m : result A) (k : A -> result B) : result B :=
  match m with
  | inl e => inl e
  | inr a => k a
  end.

Declare Scope py_scope.
Delimit Scope py_scope with py.
Notation "'do' x <- m ; k" := (bind m (fun x => k))
  (at level 10, x name, m at level 100, k at level 200) : py_scope.
Open Scope py_scope.

(** A list comprehension whose body may raise: elements are evaluated from
    left to right and the first exception escapes. *)
Fixpoint comprehension {A B : Type} (f : A -> result B) (l : list A)
  : result (list B) :=
  match l with
  | [] => ret []
  | a :: l' =>
      do b <- f a;
      do bs <- comprehension f l';
      ret (b :: bs)
  end.

(** ** Python and numpy primitives *)

Module Py.

(** [range(0, stop, step)] for [step >= 1]: [0, step, 2*step, ...] below
    [stop]. *)
Definition range (stop step : nat) : list nat :=
  (fun k => k * step) <$> seq 0 ((stop + step - 1) / step).

(** Row-major layout of a flat buffer as [rows] rows of [cols] entries. *)
Definition layout {A : Type} (rows cols : nat) (flat : list A)
  : list (list A) :=
  (fun r => take cols (drop (r * cols) flat)) <$> seq 0 rows.

(** [np.reshape(flat, [rows, cols])]: the sizes must agree. *)
Definition reshape {A : Type} (rows cols : nat) (flat : list A)
  : result (list (list A)) :=
  if length flat =? rows * cols then ret (layout rows cols flat)
  else raise ValueError.

(** Conversion of a nested list to an array: the rows must all have the
    same length (numpy refuses an inhomogeneous nesting with a
    [ValueError]); the value is the pair of the common row length and the
    flat buffer. *)
Definition as_array {A : Type} (m : list (list A)) : result (nat * list A) :=
  match m with
  | [] => ret (0, [])
  | r :: _ =>
      if forallb (fun r' => length r' =? length r) m
      then ret (length r, concat m)
      else raise ValueError
  end.

(** [m[:, a:b]] for [0 <= a]: the slice is clipped at the row's end. *)
Definition cols {A : Type} (a b : nat) (m : list (list A)) : list (list A) :=
  (fun row => take (b - a) (drop a row)) <$> m.

End Py.

(** ** The windowing generator *)

Section Pipeline.

Variable scalar : Type.

Definition vector : Type := list scalar.

(** An entry of the embedding store is a Python list; each of its fields is
    represented by the flat list of scalars it holds. *)
Definition entry : Type := list vector.

(** [(x, y)]: [x] is indexed [b][t][k], [y] is indexed [b][t]. *)
Definition batch : Type := (list (list vector) * list (list Z))%type.

(** The keyword arguments of [generate_arrays_from_list] that the body
    reads ([name] and [n_vocab] are not used by it). *)
Record gen_args : Type := GenArgs {
  num_steps : nat;
  batch_size : nat;
  embedding_size : nat
}.

Variable embeddings : gmap Z entry.
Variable args : gen_args.

(** [embeddings[int(elem)][2]] *)
Definition embed (elem : Z) : result vector :=
  match embeddings !! elem with
  | None => raise KeyError
  | Some e =>
      match e !! 2 with
      | None => raise IndexError
      | Some v => ret v
      end
  end.

(** [np.reshape(x, newshape=(batch_size, num_steps, embedding_size))] for a
    doubly nested list of vectors. *)
Definition reshape_x (x : list (list vector)) : result (list (list vector)) :=
  do rows <- Py.as_array x;
  do vecs <- Py.as_array (snd rows);
  if length (snd vecs) =? batch_size args * num_steps args * embedding_size args
  then ret (Py.layout (batch_size args) (num_steps args)
              (Py.layout (batch_size args * num_steps args)
                         (embedding_size args) (snd vecs)))
  else raise ValueError.

(** [np.reshape(y, newshape=(batch_size, num_steps))] for a slice of the
    data array. *)
Definition reshape_y (y : list (list Z)) : result (list (list Z)) :=
  Py.reshape (batch_size args) (num_steps args) (concat y).

(** What one iteration of the [for i] loop does. *)
Inductive iteration : Type :=
  | Yield (b : batch)
  | Break
  | Raise (e : exn).

Definition loop_body (data : list (list Z)) (i : nat) : iteration :=
  let x_ids := Py.cols (i * num_steps args) ((i + 1) * num_steps args) data in
  match comprehension (comprehension embed) x_ids with
  | inl e => Raise e
  | inr x =>
      let y := Py.cols (i * num_steps args + 1)
                       ((i + 1) * num_steps args + 1) data in
      match x with
      | [] => Raise IndexError
      | x0 :: _ =>
          if length x0 <? num_steps args then Break
          else
            match reshape_x x with
            | inl e => Raise e
            | inr x' =>
                match reshape_y y with
                | inl e => Raise e
                | inr y' => Yield (x', y')
                end
            end
      end
  end.

(** How a loop ends: it runs to its end (or leaves by [break]), or an
    exception escapes from it. *)
Inductive outcome : Type :=
  | Done
  | Raised (e : exn).

(** The [for i in range(...)] loop: the batches it yields, in order, and how
    it ends. *)
Fixpoint for_i (data : list (list Z)) (offsets : list nat)
  : list batch * outcome :=
  match offsets with
  | [] => ([], Done)
  | i :: rest =>
      match loop_body data i with
      | Yield b => let '(bs, o) := for_i data rest in (b :: bs, o)
      | Break => ([], Done)
      | Raise e => ([], Raised e)
      end
  end.

(** The reshaped array of a file: [n_words // batch_size] columns. *)
Definition file_data (raw_list : list Z) : result (list (list Z)) :=
  let n_words := length raw_list in
  if batch_size args =? 0 then raise ZeroDivisionError
  else
    let batch_len := n_words / batch_size args in
    Py.reshape (batch_size args) batch_len
      (take (batch_size args * batch_len) raw_list).

(** The body of [for file_name in files] for one file. [n_words - num_steps]
    is a [nat] subtraction: a negative stop gives the empty range, as zero
    does. [range] raises on a zero step. *)
Definition file_batches (raw_list : list Z) : list batch * outcome :=
  let n_words := length raw_list in
  match file_data raw_list with
  | inl e => ([], Raised e)
  | inr data =>
      if num_steps args =? 0 then ([], Raised ValueError)
      else for_i data (Py.range (n_words - num_steps args) (num_steps args))
  end.

(** One pass of [for file_name in files]. *)
Fixpoint for_files (files : list (list Z)) : list batch * outcome :=
  match files with
  | [] => ([], Done)
  | f :: rest =>
      match file_batches f with
      | (bs, Done) => let '(bs', o) := for_files rest in (bs ++ bs', o)
      | (bs, Raised e) => (bs, Raised e)
      end
  end.

(** [generate_arrays_from_list]: what the first [passes] iterations of
    [while 1] yield. [Done] here means that the loop goes on. *)
Fixpoint generate_arrays_from_list (passes : nat) (files : list (list Z))
  : list batch * outcome :=
  match passes with
  | 0 => ([], Done)
  | S n =>
      match for_files files with
      | (bs, Done) =>
          let '(bs', o) := generate_arrays_from_list n files in (bs ++ bs', o)
      | (bs, Raised e) => (bs, Raised e)
      end
  end.

(** [generator.next()] seen from the consumer: the result of the call
    number [k] (from 0), when the generator is followed for [passes]
    iterations of [while 1]. *)
Inductive drawn : Type :=
  | Next (b : batch)
  | Throws (e : exn)
  | Spinning.

Definition next (passes : nat) (files : list (list Z)) (k : nat) : drawn :=
  let '(bs, o) := generate_arrays_from_list passes files in
  match bs !! k with
  | Some b => Next b
  | None =>
      match o with
      | Raised e => Throws e
      | Done => Spinning
      end
  end.

End Pipeline.

Arguments embed {scalar} embeddings elem.
Arguments reshape_x {scalar} args x.
Arguments loop_body {scalar} embeddings args data i.
Arguments for_i {scalar} embeddings args data offsets.
Arguments file_batches {scalar} embeddings args raw_list.
Arguments for_files {scalar} embeddings args files.
Arguments generate_arrays_from_list {scalar} embeddings args passes files.
Arguments next {scalar} embeddings args passes files k.
Arguments Yield {scalar} b.
Arguments Break {scalar}.
Arguments Raise {scalar} e.
Arguments Next {scalar} b.
Arguments Throws {scalar} e.
Arguments Spinning {scalar}.

(** ** Configurations *)

Module Config.

Record t : Type := Make {
  max_grad_norm : nat;
  num_layers : nat;
  num_steps : nat;
  hidden_size : nat;
  max_epoch : nat;
  max_max_epoch : nat;
  batch_size : nat;
  vocab_size : Z;
  embedding_size : nat;
  epoch_size : Z
}.

Definition set_vocab_size (v : Z) (c : t) : t :=
  Make (max_grad_norm c) (num_layers c) (num_steps c) (hidden_size c)
       (max_epoch c) (max_max_epoch c) (batch_size c) v
       (embedding_size c) (epoch_size c).

Definition set_batch_size (v : nat) (c : t) : t :=
  Make (max_grad_norm c) (num_layers c) (num_steps c) (hidden_size c)
       (max_epoch c) (max_max_epoch c) v (vocab_size c)
       (embedding_size c) (epoch_size c).

Definition set_num_steps (v : nat) (c : t) : t :=
  Make (max_grad_norm c) (num_layers c) v (hidden_size c)
       (max_epoch c) (max_max_epoch c) (batch_size c) (vocab_size c)
       (embedding_size c) (epoch_size c).

Definition set_epoch_size (v : Z) (c : t) : t :=
  Make (max_grad_norm c) (num_layers c) (num_steps c) (hidden_size c)
       (max_epoch c) (max_max_epoch c) (batch_size c) (vocab_size c)
       (embedding_size c) v.

End Config.

Definition SmallConfig : Config.t :=
  {| Config.max_grad_norm := 5; Config.num_layers := 1;
     Config.num_steps := 20; Config.hidden_size := 200;
     Config.max_epoch := 4; Config.max_max_epoch := 13;
     Config.batch_size := 20; Config.vocab_size := 126930;
     Config.embedding_size := 200; Config.epoch_size := 1 |}.

Definition MediumConfig : Config.t :=
  {| Config.max_grad_norm := 5; Config.num_layers := 1;
     Config.num_steps := 35; Config.hidden_size := 650;
     Config.max_epoch := 6; Config.max_max_epoch := 39;
     Config.batch_size := 20; Config.vocab_size := 126930;
     Config.embedding_size := 200; Config.epoch_size := 1 |}.

Definition LargeConfig : Config.t :=
  {| Config.max_grad_norm := 10; Config.num_layers := 1;
     Config.num_steps := 35; Config.hidden_size := 1024;
     Config.max_epoch := 14; Config.max_max_epoch := 55;
     Config.batch_size := 20; Config.vocab_size := 126930;
     Config.embedding_size := 1000; Config.epoch_size := 1 |}.

Definition TestConfig : Config.t :=
  {| Config.max_grad_norm := 1; Config.num_layers := 1;
     Config.num_steps := 2; Config.hidden_size := 2;
     Config.max_epoch := 1; Config.max_max_epoch := 1;
     Config.batch_size := 10; Config.vocab_size := 126930;
     Config.embedding_size := 200; Config.epoch_size := 1 |}.

(** [get_config()]; the argument is [FLAGS.model]. *)
Definition get_config (model : string) : result Config.t :=
  if String.eqb model "small" then ret SmallConfig
  else if String.eqb model "medium" then ret MediumConfig
  else if String.eqb model "large" then ret LargeConfig
  else if String.eqb model "test" then ret TestConfig
  else raise ValueError.

(** [get_epoch_size(files, config)]: [wc -w] of a file is the number of its
    tokens; [//] is floor division, as [Z.div] is for a positive divisor. *)
Definition get_epoch_size (files : list (list Z)) (config : Config.t)
  : result Z :=
  let total := foldl (fun total file => total + length file) 0 files in
  if Config.batch_size config =? 0 then raise ZeroDivisionError
  else if Config.num_steps config =? 0 then raise ZeroDivisionError
  else ret ((Z.of_nat (total / Config.batch_size config) - 1)
            / Z.of_nat (Config.num_steps config))%Z.

(** ** Configuration objects are shared by reference

    [get_config()] makes a new instance at each call; names such as [config]
    and [valid_config] hold references to instances, and an attribute
    assignment updates the instance in the store. *)

Definition ref : Type := nat.

#[global] Instance Config_inhabited : Inhabited Config.t := populate SmallConfig.

Definition new (c : Config.t) (h : gmap ref Config.t) : ref * gmap ref Config.t :=
  let r := fresh (dom h) in (r, <[r := c]> h).

Definition setattr (r : ref) (f : Config.t -> Config.t) (h : gmap ref Config.t)
  : gmap ref Config.t :=
  alter f r h.

Definition getattr {A : Type} (r : ref) (f : Config.t -> A)
  (h : gmap ref Config.t) : A :=
  f (h !!! r).

(** [WPModel(is_training, config)]: the object keeps the reference
    ([self.config = config]); the shapes of the [inputs] and [targets]
    placeholders are fixed from the configuration at construction. *)
Record WPModel : Type := {
  is_training : bool;
  config : ref;
  inputs_shape : nat * nat * nat;
  targets_shape : nat * nat
}.

Definition WPModel_init (is_training : bool) (config : ref)
  (h : gmap ref Config.t) : WPModel :=
  let batch_size := getattr config Config.batch_size h in
  let num_steps := getattr config Config.num_steps h in
  let embedding_size := getattr config Config.embedding_size h in
  {| is_training := is_training;
     config := config;
     inputs_shape := (batch_size, num_steps, embedding_size);
     targets_shape := (batch_size, num_steps) |}.

(** The part of [main] before the graph is run: the three configuration
    names, the arguments given to the three generators and the three models.
    The arguments are [FLAGS.model] and the three slices of the file list. *)
Record setup : Type := {
  store : gmap ref Config.t;
  config_ref : ref;
  valid_config_ref : ref;
  eval_config_ref : ref;
  gen_train_args : gen_args;
  gen_valid_args : gen_args;
  gen_test_args : gen_args;
  m : WPModel;
  mvalid : WPModel;
  mtest : WPModel
}.

Definition main_setup (model : string)
  (training_list validation_list testing_list : list (list Z))
  : result setup :=
  let vocab_size := 126930%Z in
  do c <- get_config model;
  let '(config, h) := new c ∅ in
  let h := setattr config (Config.set_vocab_size vocab_size) h in
  let valid_config := config in
  do c <- get_config model;
  let '(eval_config, h) := new c h in
  let h := setattr eval_config (Config.set_batch_size 1) h in
  let h := setattr eval_config (Config.set_num_steps 1) h in
  let h := setattr eval_config (Config.set_vocab_size vocab_size) h in
  do e <- get_epoch_size training_list (h !!! config);
  let h := setattr config (Config.set_epoch_size e) h in
  do e <- get_epoch_size validation_list (h !!! valid_config);
  let h := setattr valid_config (Config.set_epoch_size e) h in
  do e <- get_epoch_size testing_list (h !!! eval_config);
  let h := setattr eval_config (Config.set_epoch_size e) h in
  let gen_args_of_config :=
    GenArgs (getattr config Config.num_steps h)
            (getattr config Config.batch_size h)
            (getattr config Config.embedding_size h) in
  ret {| store := h;
         config_ref := config;
         valid_config_ref := valid_config;
         eval_config_ref := eval_config;
         gen_train_args := gen_args_of_config;
         gen_valid_args := gen_args_of_config;
         gen_test_args := gen_args_of_config;
         m := WPModel_init true config h;
         mvalid := WPModel_init false valid_config h;
         mtest := WPModel_init false eval_config h |}.

(** ** The epoch loop

    The compute engine is a parameter: [zero_state model] is the value of
    [session.run(model.initial_state)] (the cell's zero state), and
    [session_run s model eval_op state (x, y)] is
    [session.run(fetches, feed_dict)] with [state], [x] and [y] fed: it gives
    the session after the run, the cost and the final state, or raises.
    [eval_op] tells whether the training operation is among the fetches. *)

Section Driver.

Variable scalar : Type.
Variables session state cost : Type.

Variable zero_state : WPModel -> state.
Variable session_run :
  session -> WPModel -> bool -> state -> batch scalar ->
  result (session * (cost * state)).
Variable assign_lr : session -> nat -> session.

(** [0.0], [+] on costs and [np.exp(costs / iters)]. *)
Variable cost_zero : cost.
Variable cost_add : cost -> cost -> cost.
Variable perplexity : cost -> nat -> cost.

(** One [session.run] of the loop: what was fed and what came back. *)
Record ran : Type := {
  fed_state : state;
  fed_batch : batch scalar;
  cost_out : cost;
  final_state : state
}.

Inductive ending : Type :=
  | Returns (p : cost)
  | Escapes (e : exn)
  | Hangs.

(** A call of [run_epoch]: its runs in order, how it ends, the number of
    batches drawn from the generator so far and the session it leaves. *)
Record epoch : Type := {
  runs : list ran;
  ending_of : ending;
  position : nat;
  session_of : session
}.

Section RunEpoch.

Variable h : gmap ref Config.t.
Variable generator : nat -> drawn scalar.
Variable model : WPModel.
Variable eval_op : bool.
Variable verbose : bool.

(** [for step in range(config.epoch_size)], with [n] iterations left;
    [k] is the number of batches drawn from the generator so far. With
    [verbose], [step % (config.epoch_size // 10)] is evaluated at each
    step and raises when the divisor is zero. *)
Fixpoint for_step (n : nat) (s : session) (k : nat) (st : state)
  (costs : cost) (iters : nat) : epoch :=
  match n with
  | 0 =>
      {| runs := []; ending_of := Returns (perplexity costs iters);
         position := k; session_of := s |}
  | S n' =>
      match generator k with
      | Spinning =>
          {| runs := []; ending_of := Hangs;
             position := k; session_of := s |}
      | Throws e =>
          {| runs := []; ending_of := Escapes e;
             position := k; session_of := s |}
      | Next b =>
          match session_run s model eval_op st b with
          | inl e =>
              {| runs := []; ending_of := Escapes e;
                 position := S k; session_of := s |}
          | inr (s', (cost, st')) =>
              let r := {| fed_state := st; fed_batch := b;
                          cost_out := cost; final_state := st' |} in
              let costs := cost_add costs cost in
              let iters := iters + getattr (config model) Config.num_steps h in
              if verbose
                 && (getattr (config model) Config.epoch_size h / 10 =? 0)%Z
              then
                {| runs := [r]; ending_of := Escapes ZeroDivisionError;
                   position := S k; session_of := s' |}
              else
                let e := for_step n' s' (S k) st' costs iters in
                {| runs := r :: runs e; ending_of := ending_of e;
                   position := position e; session_of := session_of e |}
          end
      end
  end.

(** [run_epoch(session, generator, model, eval_op, verbose)], the
    generator having been drawn [k] times before the call. When the loop
    makes no iteration, [costs] is still the Python float [0.0] and
    [iters] is [0]: [costs / iters] raises. After an iteration [costs] is
    a numpy scalar, whose division does not raise. *)
Definition run_epoch (s : session) (k : nat) : epoch :=
  let state := zero_state model in
  match Z.to_nat (getattr (config model) Config.epoch_size h) with
  | 0 =>
      {| runs := []; ending_of := Escapes ZeroDivisionError;
         position := k; session_of := s |}
  | S n => for_step (S n) s k state cost_zero 0
  end.

End RunEpoch.

(** The training loop of [main]: the epochs it runs, in order, up to the
    first one that does not return. *)
Inductive role : Type := Train | Valid | Test.

Section MainLoop.

Variable su : setup.
Variables gen_train gen_valid gen_test : nat -> drawn scalar.

Definition returns (e : epoch) : bool :=
  match ending_of e with
  | Returns _ => true
  | _ => false
  end.

(** [for i in range(config.max_max_epoch)], with [n] iterations left;
    [kt] and [kv] count the draws from [gen_train] and [gen_valid]. The
    value is the log and, when every epoch returned, the session. *)
Fixpoint for_epoch (n i : nat) (s : session) (kt kv : nat)
  : list (role * epoch) * option session :=
  match n with
  | 0 => ([], Some s)
  | S n' =>
      let s := assign_lr s i in
      let et := run_epoch (store su) gen_train (m su) true true s kt in
      if returns et then
        let ev := run_epoch (store su) gen_valid (mvalid su) false false
                            (session_of et) kv in
        if returns ev then
          let '(log, s') :=
            for_epoch n' (S i) (session_of ev) (position et) (position ev) in
          ((Train, et) :: (Valid, ev) :: log, s')
        else ([(Train, et); (Valid, ev)], None)
      else ([(Train, et)], None)
  end.

Definition main_loop (s : session) : list (role * epoch) :=
  let n := getattr (config_ref su) Config.max_max_epoch (store su) in
  match for_epoch n 0 s 0 0 with
  | (log, Some s') =>
      log ++ [(Test, run_epoch (store su) gen_test (mtest su) false false s' 0)]
  | (log, None) => log
  end.

End MainLoop.

(** [main]: the setup, then the loop over the three generators. [passes]
    bounds how long each generator is followed. *)
Definition main (passes : nat) (model : string)
  (embeddings : gmap Z (entry scalar))
  (training_list validation_list testing_list : list (list Z))
  (s : session) : result (list (role * epoch)) :=
  do su <- main_setup model training_list validation_list testing_list;
  ret (main_loop su
         (next embeddings (gen_train_args su) passes training_list)
         (next embeddings (gen_valid_args su) passes validation_list)
         (next embeddings (gen_test_args su) passes testing_list)
         s).

End Driver.

Arguments for_step {scalar session state cost} session_run cost_add perplexity
  h generator model eval_op verbose n s k st costs iters.
Arguments run_epoch {scalar session state cost} zero_state session_run
  cost_zero cost_add perplexity h generator model eval_op verbose s k.
Arguments fed_state {scalar state cost} r.
Arguments fed_batch {scalar state cost} r.
Arguments cost_out {scalar state cost} r.
Arguments final_state {scalar state cost} r.
Arguments runs {scalar session state cost} e.
Arguments ending_of {scalar session state cost} e.
Arguments position {scalar session state cost} e.
Arguments session_of {scalar session state cost} e.
Arguments Returns {cost} p.
Arguments Escapes {cost} e.
Arguments Hangs {cost}.

(** ** Vocabulary of the statements *)

(** [m[b][t]] of a doubly nested list. *)
Definition at2 {A : Type} (m : list (list A)) (b t : nat) : option A :=
  m !! b ≫= (.!! t).

(** A nested list has the shape [(a, b)], resp. [(a, b, c)]. *)
Definition has_shape2 {A : Type} (shape : nat * nat) (m : list (list A)) : Prop :=
  length m = shape.1 ∧ Forall (λ row, length row = shape.2) m.

Definition has_shape3 {A : Type} (shape : nat * nat * nat)
  (m : list (list (list A))) : Prop :=
  length m = shape.1.1
  ∧ Forall (λ row, length row = shape.1.2
                   ∧ Forall (λ v, length v = shape.2) row) m.

(** The windowing as the specification words it: the column offsets
    [0, num_steps, 2 * num_steps, ...] while [i + num_steps < batch_len], and
    [x_ids = data[:, i : i + num_steps]] at each. It is used only to set the
    generator's output against it. *)
Definition spec_offsets (num_steps batch_len : nat) : list nat :=
  filter (λ i, i + num_steps < batch_len)
         ((λ k, k * num_steps) <$> seq 0 (S batch_len)).

Definition spec_x_ids (num_steps batch_len : nat) (data : list (list Z))
  : list (list (list Z)) :=
  (λ i, Py.cols i (i + num_steps) data) <$> spec_offsets num_steps batch_len.

(** ** Concrete stores and a concrete engine, for the examples *)

Module Sample.

(** The vector of the id [i] is [[i]]; entries have three fields. *)
Definition store : gmap Z (entry Z) :=
  list_to_map ((λ i, (i, [[]; []; [i]])) <$> [1; 2; 3; 4; 5; 6; 7; 8; 9; 10]%Z).

(** A store for the preset [test]: the vector of the id 1 has 200
    entries. *)
Definition store200 : gmap Z (entry Z) :=
  {[ 1%Z := [[]; []; replicate 200 0%Z] ]}.

(** A store whose entry has four fields. *)
Definition store4 : gmap Z (entry Z) :=
  {[ 1%Z := [[]; []; [7%Z]; [9%Z]] ]}.

(** An engine whose state counts the batches it has run since the state
    was zero; the session and the cost carry nothing. *)
Definition zero_state (_ : WPModel) : nat := 0.

Definition session_run (s : unit) (_ : WPModel) (_ : bool) (st : nat)
  (_ : batch Z) : result (unit * (nat * nat)) :=
  ret (s, (0, S st)).

Definition perplexity (costs iters : nat) : nat := costs.

(** A configuration with [batch_size = num_steps = embedding_size = 1] and
    an epoch of two batches, held at the reference [0]. *)
Definition tiny : Config.t :=
  {| Config.max_grad_norm := 1; Config.num_layers := 1;
     Config.num_steps := 1; Config.hidden_size := 2;
     Config.max_epoch := 1; Config.max_max_epoch := 2;
     Config.batch_size := 1; Config.vocab_size := 10;
     Config.embedding_size := 1; Config.epoch_size := 2 |}.

Definition heap : gmap ref Config.t := {[ 0 := tiny ]}.

Definition mvalid : WPModel := WPModel_init false 0 heap.

(** The generator over the single file [1 2 3 4]: three batches a pass. *)
Definition gen_valid : nat → drawn Z :=
  next store (GenArgs 1 1 1) 4 [[1; 2; 3; 4]%Z].

Definition valid_epoch (k : nat) : epoch Z unit nat nat :=
  run_epoch zero_state session_run 0 Nat.add perplexity
    heap gen_valid mvalid false false tt k.

End Sample.

(** ** Vocabulary and samples of the further properties *)

(** The store covers the ids [ids]: each has an entry whose field 2 is a
    vector of [embedding_size] scalars. *)
Definition covers {scalar : Type} (embeddings : gmap Z (entry scalar))
  (args : gen_args) (ids : list Z) : Prop :=
  Forall (λ id, ∃ v, embed embeddings id = inr v
                     ∧ length v = embedding_size args) ids.

Module SampleLoop.

(** A learning-rate assignment that leaves the sample session as it is. *)
Definition assign_lr (s : unit) (_ : nat) : unit := s.

(** A configuration with [batch_size = num_steps = embedding_size = 1], an
    epoch of ten batches and two epochs, held at the reference [0] and named
    by all three configuration names. *)
Definition ten : Config.t :=
  {| Config.max_grad_norm := 1; Config.num_layers := 1;
     Config.num_steps := 1; Config.hidden_size := 2;
     Config.max_epoch := 1; Config.max_max_epoch := 2;
     Config.batch_size := 1; Config.vocab_size := 10;
     Config.embedding_size := 1; Config.epoch_size := 10 |}.

Definition setup_ten : setup :=
  let h : gmap ref Config.t := {[ 0 := ten ]} in
  {| store := h;
     config_ref := 0; valid_config_ref := 0; eval_config_ref := 0;
     gen_train_args := GenArgs 1 1 1;
     gen_valid_args := GenArgs 1 1 1;
     gen_test_args := GenArgs 1 1 1;
     m := WPModel_init true 0 h;
     mvalid := WPModel_init false 0 h;
     mtest := WPModel_init false 0 h |}.

(** The generator over the single file [1 2 3 4], followed for ten passes. *)
Definition gen_ten : nat → drawn Z :=
  next Sample.store (GenArgs 1 1 1) 10 [[1; 2; 3; 4]%Z].

Definition loop_ten : list (role * epoch Z unit nat nat) :=
  main_loop Z unit nat nat Sample.zero_state Sample.session_run assign_lr
    0 Nat.add Sample.perplexity setup_ten gen_ten gen_ten gen_ten tt.

End SampleLoop.

(** * Properties of the primitives *)

Section Primitives.

Context {A : Type}.
Implicit Types (l flat row : list A) (m : list (list A)).

Lemma layout_length rows cols flat :
  length (Py.layout rows cols flat) = rows.
Proof. unfold Py.layout. by rewrite length_fmap, length_seq. Qed.

Lemma layout_lookup rows cols flat r :
  r < rows →
  Py.layout rows cols flat !! r = Some (take cols (drop (r * cols) flat)).
Proof.
  intros Hr. unfold Py.layout.
  rewrite list_lookup_fmap, lookup_seq_lt by done. done.
Qed.

Lemma layout_rows rows cols flat :
  length flat = rows * cols →
  Forall (λ row, length row = cols) (Py.layout rows cols flat).
Proof.
  intros Hlen. apply Forall_lookup. intros r row Hrow.
  assert (r < rows) as Hr.
  { apply lookup_lt_Some in Hrow. by rewrite layout_length in Hrow. }
  rewrite layout_lookup in Hrow by done. injection Hrow as <-.
  rewrite length_take, length_drop. nia.
Qed.

Lemma layout_cons rows cols row flat :
  length row = cols →
  Py.layout (S rows) cols (row ++ flat) = row :: Py.layout rows cols flat.
Proof.
  intros Hrow. unfold Py.layout. cbn [seq fmap list_fmap].
  f_equal.
  - rewrite Nat.mul_0_l, drop_0. by rewrite take_app_length'.
  - rewrite <- fmap_S_seq, <- list_fmap_compose.
    apply list_fmap_ext. intros _ r _. cbn.
    f_equal. replace (cols + r * cols) with (length row + r * cols) by lia.
    by rewrite drop_app_add.
Qed.

(** Laying out the concatenation of [rows] rows of [cols] entries gives the
    rows back. *)
Lemma layout_concat rows cols m :
  length m = rows →
  Forall (λ row, length row = cols) m →
  Py.layout rows cols (concat m) = m.
Proof.
  intros <- Hm. induction Hm as [|row m Hrow _ IH]; [done|].
  cbn [concat length]. rewrite layout_cons by done. by rewrite IH.
Qed.

Lemma length_concat_uniform cols m :
  Forall (λ row, length row = cols) m →
  length (concat m) = length m * cols.
Proof.
  induction 1 as [|row m Hrow _ IH]; [done|].
  cbn [concat length]. rewrite length_app. lia.
Qed.

Lemma as_array_inv m w flat :
  Py.as_array m = inr (w, flat) →
  flat = concat m ∧ Forall (λ row, length row = w) m.
Proof.
  unfold Py.as_array. destruct m as [|r m']; [by inversion 1|].
  destruct (forallb _ _) eqn:Hall; [|done].
  intros [= <- <-]. split; [done|].
  apply Is_true_true_2, forallb_True in Hall.
  eapply Forall_impl; [exact Hall|].
  cbn. intros row Hrow. by apply Nat.eqb_eq, Is_true_true.
Qed.

Lemma cols_length a b m : length (Py.cols a b m) = length m.
Proof. unfold Py.cols. by rewrite length_fmap. Qed.

Lemma cols_rows a b m w :
  Forall (λ row, length row = w) m →
  Forall (λ row, length row = (b - a) `min` (w - a)) (Py.cols a b m).
Proof.
  intros Hm. unfold Py.cols. apply Forall_fmap.
  eapply Forall_impl; [exact Hm|].
  cbn. intros row <-. by rewrite length_take, length_drop.
Qed.

Lemma cols_lookup a b m r row :
  m !! r = Some row →
  Py.cols a b m !! r = Some (take (b - a) (drop a row)).
Proof. intros Hr. unfold Py.cols. by rewrite list_lookup_fmap, Hr. Qed.

End Primitives.

Lemma comprehension_inv {A B : Type} (f : A → result B) l bs :
  comprehension f l = inr bs → Forall2 (λ a b, f a = inr b) l bs.
Proof.
  revert bs. induction l as [|a l IH]; intros bs; cbn.
  - intros [= <-]. constructor.
  - destruct (f a) as [e|b] eqn:Hb; cbn; [done|].
    destruct (comprehension f l) as [e|bs'] eqn:Hbs; cbn; [done|].
    intros [= <-]. constructor; [done|]. by apply IH.
Qed.

Lemma comprehension_total {A B : Type} (f : A → result B) l bs :
  Forall2 (λ a b, f a = inr b) l bs → comprehension f l = inr bs.
Proof.
  induction 1 as [|a b l bs Hb _ IH]; cbn; [done|].
  rewrite Hb. cbn. rewrite IH. done.
Qed.

Lemma Forall2_rows_length {A B : Type} (R : A → B → Prop) w
  (m : list (list A)) (m' : list (list B)) :
  Forall2 (Forall2 R) m m' →
  Forall (λ row, length row = w) m → Forall (λ row, length row = w) m'.
Proof.
  induction 1 as [|row row' m m' Hrow _ IH]; [constructor|].
  intros Hm. apply Forall_cons in Hm as [Hw Hm]. constructor; [|by apply IH].
  by rewrite <- (Forall2_length _ _ _ Hrow).
Qed.

Lemma Forall_concat_inv {A : Type} (P : A → Prop) (m : list (list A)) :
  Forall P (concat m) → Forall (Forall P) m.
Proof.
  induction m as [|row m IH]; cbn; [constructor|].
  intros H. apply Forall_app in H as [? ?]. constructor; auto.
Qed.

Section PipelineFacts.

Variable scalar : Type.
Variable embeddings : gmap Z (entry scalar).
Variable args : gen_args.

Abbreviation bs := (batch_size args).
Abbreviation ns := (num_steps args).
Abbreviation emb := (embedding_size args).

Lemma reshape_x_inv (x x' : list (list (vector scalar))) :
  length x = bs →
  Forall (λ row, length row = ns) x →
  reshape_x args x = inr x' →
  x' = x ∧ Forall (Forall (λ v, length v = emb)) x.
Proof.
  intros Hlen Hrows. unfold reshape_x. unfold vector in *.
  destruct (Py.as_array x) as [e|[w flat]] eqn:Hx; cbn; [done|].
  apply as_array_inv in Hx as [-> _].
  destruct (Py.as_array (concat x)) as [e|[d flat]] eqn:Hv; cbn; [done|].
  apply as_array_inv in Hv as [-> Hd].
  destruct (_ =? _) eqn:Hsize; [|done]. apply Nat.eqb_eq in Hsize.
  intros [= <-].
  assert (length (concat x) = bs * ns) as Hn.
  { rewrite (length_concat_uniform ns) by done. lia. }
  assert (Forall (λ v, length v = emb) (concat x)) as Hemb.
  { rewrite (length_concat_uniform d), Hn in Hsize by done.
    destruct (concat x) as [|v vs] eqn:Hc; [constructor|].
    cbn in Hn. assert (d = emb) as <- by nia. done. }
  split; [|by apply Forall_concat_inv].
  rewrite (layout_concat (bs * ns) emb) by done.
  by apply layout_concat.
Qed.

Lemma reshape_y_inv w (y y' : list (list Z)) :
  1 ≤ bs →
  length y = bs →
  Forall (λ row, length row = w) y →
  reshape_y args y = inr y' →
  y' = y ∧ w = ns.
Proof.
  intros Hbs Hlen Hrows. unfold reshape_y, Py.reshape.
  destruct (_ =? _) eqn:Hsize; [|done]. apply Nat.eqb_eq in Hsize.
  intros [= <-].
  rewrite (length_concat_uniform w), Hlen in Hsize by done.
  assert (w = ns) as -> by nia.
  split; [|done]. by apply layout_concat.
Qed.

(** What an iteration that yields has done: [x] holds the embeddings of the
    columns [i * num_steps .. i * num_steps + num_steps - 1] of the data, [y]
    is the same window one column further, and both fit in the array. *)
Lemma loop_body_yield data batch_len i x y :
  1 ≤ bs →
  1 ≤ ns →
  length data = bs →
  Forall (λ row, length row = batch_len) data →
  loop_body embeddings args data i = Yield (x, y) →
  Forall2 (Forall2 (λ id v, embed embeddings id = inr v))
          (Py.cols (i * ns) (i * ns + ns) data) x
  ∧ y = Py.cols (i * ns + 1) (i * ns + 1 + ns) data
  ∧ i * ns + ns + 1 ≤ batch_len
  ∧ Forall (Forall (λ v, length v = emb)) x.
Proof.
  intros Hbs Hns Hlen Hrect. unfold loop_body.
  replace ((i + 1) * ns) with (i * ns + ns) by lia.
  replace (i * ns + ns + 1) with (i * ns + 1 + ns) by lia.
  set (a := i * ns).
  destruct (comprehension _ _) as [e|x0] eqn:Hx; [done|].
  apply comprehension_inv in Hx.
  assert (Forall2 (Forall2 (λ id v, embed embeddings id = inr v))
            (Py.cols a (a + ns) data) x0) as Hx'.
  { eapply Forall2_impl; [exact Hx|]. intros ??. apply comprehension_inv. }
  clear Hx.
  assert (Forall (λ row : list Z, length row = min ns (batch_len - a))
            (Py.cols a (a + ns) data)) as Hw.
  { eapply Forall_impl; [exact (cols_rows a (a + ns) _ _ Hrect)|].
    cbn. intros row ->. f_equal. lia. }
  pose proof (Forall2_rows_length _ _ _ _ Hx' Hw) as Hw0.
  pose proof (Forall2_length _ _ _ Hx') as Hlen0.
  rewrite cols_length, Hlen in Hlen0.
  destruct x0 as [|r0 x0]; [done|].
  destruct (length r0 <? ns) eqn:Hshort; [done|].
  apply Nat.ltb_ge in Hshort.
  assert (ns ≤ batch_len - a) as Hfit.
  { apply Forall_cons in Hw0 as [Hr0 _]. lia. }
  rewrite Nat.min_l in Hw0 by done.
  destruct (reshape_x _ _) as [e|x'] eqn:Hrx; [done|].
  apply reshape_x_inv in Hrx as [-> Hemb]; [|done|done].
  destruct (reshape_y _ _) as [e|y'] eqn:Hry; [done|].
  apply (reshape_y_inv (min ns (batch_len - (a + 1)))) in Hry as [-> Hfit'];
    [|done|by rewrite cols_length|].
  - intros [= <- <-]. split_and!; [done|done|lia|done].
  - eapply Forall_impl; [exact (cols_rows (a + 1) (a + 1 + ns) _ _ Hrect)|].
    cbn. intros row ->. f_equal. lia.
Qed.

Lemma for_i_lookup data offsets k b :
  (for_i embeddings args data offsets).1 !! k = Some b →
  ∃ i, offsets !! k = Some i
       ∧ loop_body embeddings args data i = Yield b.
Proof.
  revert k. induction offsets as [|i offsets IH]; intros k; cbn; [done|].
  destruct (loop_body _ _ _ i) as [b'| |e] eqn:Hbody; cbn; [|done|done].
  destruct (for_i _ _ _ offsets) as [bs' o] eqn:Hrest. cbn in *.
  destruct k as [|k]; cbn.
  - intros [= <-]. eauto.
  - intros Hk. apply IH in Hk as (i' & ? & ?). eauto.
Qed.

Lemma file_data_inv raw data :
  file_data args raw = inr data →
  1 ≤ bs
  ∧ data = Py.layout bs (length raw / bs) (take (bs * (length raw / bs)) raw)
  ∧ length data = bs
  ∧ Forall (λ row, length row = length raw / bs) data.
Proof.
  unfold file_data, Py.reshape.
  destruct (bs =? 0) eqn:Hbs; [done|]. apply Nat.eqb_neq in Hbs.
  destruct (_ =? _) eqn:Hsize; [|done]. apply Nat.eqb_eq in Hsize.
  intros [= <-]. split_and!; [lia|done|apply layout_length|].
  apply layout_rows. rewrite Hsize. done.
Qed.

(** The reshaped array always exists when [batch_size] is not zero. *)
Lemma file_data_total raw :
  1 ≤ bs → ∃ data, file_data args raw = inr data.
Proof.
  intros Hbs. unfold file_data, Py.reshape.
  destruct (bs =? 0) eqn:Hz; [apply Nat.eqb_eq in Hz; lia|].
  rewrite length_take.
  pose proof (Nat.Div0.mul_div_le (length raw) bs).
  rewrite Nat.min_l by lia. rewrite Nat.eqb_refl. eauto.
Qed.

(** Row [b] of the reshaped array is the chunk of the token stream that
    starts at [b * batch_len]. *)
Lemma file_data_lookup raw data b row j :
  file_data args raw = inr data →
  data !! b = Some row →
  j < length raw / bs →
  row !! j = raw !! (b * (length raw / bs) + j).
Proof.
  intros Hdata Hrow Hj.
  apply file_data_inv in Hdata as (Hbs & -> & _ & _).
  assert (b < bs) as Hb.
  { apply lookup_lt_Some in Hrow. by rewrite layout_length in Hrow. }
  rewrite layout_lookup in Hrow by done. injection Hrow as <-.
  rewrite lookup_take_lt, lookup_drop by done.
  apply lookup_take_lt. nia.
Qed.

Lemma range_lookup stop step k i :
  Py.range stop step !! k = Some i → i = k * step.
Proof.
  unfold Py.range. rewrite list_lookup_fmap.
  destruct (seq _ _ !! k) as [k'|] eqn:Hk; [|done].
  apply lookup_seq in Hk as [-> _]. by intros [= <-].
Qed.

(** The batch number [k] of a file (from 0) is cut at column
    [k * num_steps * num_steps]. *)
Lemma file_batches_lookup raw k x y :
  (file_batches embeddings args raw).1 !! k = Some (x, y) →
  ∃ data,
    file_data args raw = inr data
    ∧ 1 ≤ bs ∧ 1 ≤ ns
    ∧ Forall2 (Forall2 (λ id v, embed embeddings id = inr v))
              (Py.cols (k * ns * ns) (k * ns * ns + ns) data) x
    ∧ y = Py.cols (k * ns * ns + 1) (k * ns * ns + 1 + ns) data
    ∧ k * ns * ns + ns + 1 ≤ length raw / bs
    ∧ Forall (Forall (λ v, length v = emb)) x.
Proof.
  unfold file_batches.
  destruct (file_data args raw) as [e|data] eqn:Hdata; [done|].
  destruct (ns =? 0) eqn:Hns; [done|]. apply Nat.eqb_neq in Hns.
  intros (i & Hi & Hbody)%for_i_lookup.
  apply range_lookup in Hi as ->.
  pose proof (file_data_inv _ _ Hdata) as (Hbs & _ & Hlen & Hrect).
  eapply loop_body_yield in Hbody as (? & ? & ? & ?); [|done|lia|done|done].
  exists data. split_and!; [done|done|lia|done|done|done|done].
Qed.

Lemma for_files_elem files b :
  b ∈ (for_files embeddings args files).1 →
  ∃ raw, raw ∈ files ∧ b ∈ (file_batches embeddings args raw).1.
Proof.
  induction files as [|raw files IH]; cbn; [by intros ?%elem_of_nil|].
  destruct (file_batches _ _ raw) as [bs' [|e]] eqn:Hraw; cbn.
  - destruct (for_files _ _ files) as [bs'' o]. cbn in *.
    intros [Hb|Hb]%elem_of_app.
    + exists raw. rewrite Hraw. split; [left|done].
    + destruct (IH Hb) as (raw' & ? & ?). exists raw'. split; [by right|done].
  - intros Hb. exists raw. rewrite Hraw. split; [left|done].
Qed.

Lemma generate_elem passes files b :
  b ∈ (generate_arrays_from_list embeddings args passes files).1 →
  ∃ raw, raw ∈ files ∧ b ∈ (file_batches embeddings args raw).1.
Proof.
  induction passes as [|n IH]; cbn; [by intros ?%elem_of_nil|].
  destruct (for_files _ _ files) as [bs' [|e]] eqn:Hpass; cbn.
  - destruct (generate_arrays_from_list _ _ n files) as [bs'' o]. cbn in *.
    intros [Hb|Hb]%elem_of_app; [|by apply IH].
    apply for_files_elem. by rewrite Hpass.
  - intros Hb. apply for_files_elem. by rewrite Hpass.
Qed.

(** Following the generator for more passes only extends what it has
    yielded: a batch drawn within [passes] passes is the one drawn at the same
    position within any larger number of passes. *)
Lemma generate_prefix passes n files :
  (generate_arrays_from_list embeddings args passes files).1
  `prefix_of` (generate_arrays_from_list embeddings args (passes + n) files).1.
Proof.
  induction passes as [|p IH]; cbn; [apply prefix_nil|].
  destruct (for_files _ _ files) as [bs' [|e]]; cbn; [|done].
  destruct (generate_arrays_from_list _ _ p files) as [bs1 o1].
  destruct (generate_arrays_from_list _ _ (p + n) files) as [bs2 o2].
  cbn in *. by apply prefix_app.
Qed.

Lemma next_mono passes n files k b :
  next embeddings args passes files k = Next b →
  next embeddings args (passes + n) files k = Next b.
Proof.
  unfold next. pose proof (generate_prefix passes n files) as Hpre.
  destruct (generate_arrays_from_list _ _ passes files) as [bs1 o1].
  destruct (generate_arrays_from_list _ _ (passes + n) files) as [bs2 o2].
  cbn in Hpre.
  destruct (bs1 !! k) as [b1|] eqn:Hk; [|by destruct o1].
  intros [= <-]. by rewrite (prefix_lookup_Some _ _ _ _ Hk Hpre).
Qed.

End PipelineFacts.

(** * The windowing pipeline *)

Section Windows.

Variable scalar : Type.
Variable embeddings : gmap Z (entry scalar).
Variable args : gen_args.

Abbreviation bs := (batch_size args).
Abbreviation ns := (num_steps args).
Abbreviation emb := (embedding_size args).

(** Entry [b][t] of a yielded batch: [x] holds field 2 of the entry of the
    id at column [c + t] of row [b], [y] holds the id at column
    [c + t + 1] of the same row, where [c] is the column the batch was cut
    at. *)
Lemma file_batches_at raw k x y :
  (file_batches embeddings args raw).1 !! k = Some (x, y) →
  ∃ data,
    file_data args raw = inr data ∧ 1 ≤ bs ∧ 1 ≤ ns
    ∧ has_shape3 (bs, ns, emb) x ∧ has_shape2 (bs, ns) y
    ∧ ∀ b t, b < bs → t < ns →
        ∃ id id' v,
          at2 data b (k * ns * ns + t) = Some id
          ∧ at2 data b (k * ns * ns + t + 1) = Some id'
          ∧ embed embeddings id = inr v
          ∧ at2 x b t = Some v
          ∧ at2 y b t = Some id'.
Proof.
  intros (data & Hdata & Hbs & Hns & Hx & -> & Hfit & Hemb)%file_batches_lookup.
  set (c := k * ns * ns) in *.
  pose proof (file_data_inv _ _ _ Hdata) as (_ & _ & Hlen & Hrect).
  pose proof (Forall2_length _ _ _ Hx) as Hlenx. rewrite cols_length in Hlenx.
  unfold vector in *.
  assert (Forall (λ row : list Z, length row = ns) (Py.cols c (c + ns) data))
    as Hwx.
  { eapply Forall_impl; [exact (cols_rows c (c + ns) _ _ Hrect)|].
    cbn. intros row ->. lia. }
  exists data. split_and!; [done|done|done| | |].
  - split; cbn; [lia|].
    pose proof (Forall2_rows_length _ _ _ _ Hx Hwx) as Hwx'.
    apply Forall_forall. intros row Hin. split.
    + by eapply Forall_forall in Hwx'.
    + by eapply Forall_forall in Hemb.
  - split; cbn; [by rewrite cols_length|].
    eapply Forall_impl; [exact (cols_rows (c + 1) (c + 1 + ns) _ _ Hrect)|].
    cbn. intros row ->. lia.
  - intros b t Hb Ht.
    destruct (lookup_lt_is_Some_2 data b) as [row Hrow]; [lia|].
    assert (length row = length raw / bs) as Hrowlen.
    { by eapply Forall_lookup in Hrect. }
    destruct (lookup_lt_is_Some_2 row (c + t)) as [id Hid]; [lia|].
    destruct (lookup_lt_is_Some_2 row (c + t + 1)) as [id' Hid']; [lia|].
    pose proof (cols_lookup c (c + ns) _ _ _ Hrow) as Hxrow.
    destruct (Forall2_lookup_l _ _ _ _ _ Hx Hxrow) as (xrow & Hxb & Hxr).
    assert (take (c + ns - c) (drop c row) !! t = Some id) as Hidt.
    { rewrite lookup_take_lt, lookup_drop by lia. done. }
    destruct (Forall2_lookup_l _ _ _ _ _ Hxr Hidt) as (v & Hv & Hembed).
    exists id, id', v. unfold at2. rewrite Hrow, Hxb. cbn.
    split_and!; [done|done|done|done|].
    rewrite (cols_lookup _ _ _ _ _ Hrow). cbn.
    rewrite lookup_take_lt, lookup_drop by lia.
    rewrite <- Hid'. f_equal. lia.
Qed.

(** C4. In every batch the generator yields, [y[b][t]] is the token id that
    stands one column to the right of the token embedded at [x[b][t]], in
    the same row of the same file's reshaped array: it is the token that
    follows it in the file. *)
Theorem y_is_next_token passes files x y :
  (x, y) ∈ (generate_arrays_from_list embeddings args passes files).1 →
  ∃ raw data c,
    raw ∈ files ∧ file_data args raw = inr data ∧ 1 ≤ bs ∧ 1 ≤ ns
    ∧ has_shape2 (bs, ns) y
    ∧ ∀ b t, b < bs → t < ns →
        ∃ id id' v,
          at2 data b (c + t) = Some id
          ∧ embed embeddings id = inr v
          ∧ at2 x b t = Some v
          ∧ at2 data b (c + t + 1) = Some id'
          ∧ at2 y b t = Some id'
          ∧ raw !! (b * (length raw / bs) + (c + t)) = Some id
          ∧ raw !! (b * (length raw / bs) + (c + t) + 1) = Some id'.
Proof.
  intros (raw & Hraw & Hin)%generate_elem.
  apply list_elem_of_lookup in Hin as [k Hk].
  pose proof (file_batches_lookup _ _ _ _ _ _ _ Hk)
    as (_ & _ & _ & _ & _ & _ & Hfit & _).
  apply file_batches_at in Hk as (data & Hdata & Hbs & Hns & _ & Hy & Hat).
  exists raw, data, (k * ns * ns). split_and!; [done..|].
  intros b t Hb Ht.
  destruct (Hat b t Hb Ht) as (id & id' & v & Hid & Hid' & Hv & Hx & Hyt).
  exists id, id', v. split_and!; [done..| |].
  - unfold at2 in Hid. destruct (data !! b) as [row|] eqn:Hrow; [|done].
    cbn in Hid. rewrite <- Hid. symmetry.
    eapply file_data_lookup; [done|done|lia].
  - unfold at2 in Hid'. destruct (data !! b) as [row|] eqn:Hrow; [|done].
    cbn in Hid'. rewrite <- Hid'. symmetry.
    replace (b * (length raw / bs) + (k * ns * ns + t) + 1)
      with (b * (length raw / bs) + (k * ns * ns + t + 1)) by lia.
    eapply file_data_lookup; [done|done|lia].
Qed.

(** C8, amended. Every vector in a yielded [x] is field 2 (the third
    field) of the entry of the id it embeds; it is the entry's last field
    when the entry has exactly three fields. *)
Theorem embedded_vector_is_field_2 passes files x y b t v :
  (x, y) ∈ (generate_arrays_from_list embeddings args passes files).1 →
  at2 x b t = Some v →
  ∃ raw data c id e,
    raw ∈ files ∧ file_data args raw = inr data
    ∧ at2 data b (c + t) = Some id
    ∧ embeddings !! id = Some e
    ∧ e !! 2 = Some v
    ∧ (length e = 3 → last e = Some v).
Proof.
  intros (raw & Hraw & Hin)%generate_elem Hv.
  apply list_elem_of_lookup in Hin as [k Hk].
  apply file_batches_at in Hk
    as (data & Hdata & Hbs & Hns & [Hlx Hx] & _ & Hat).
  cbn in Hlx, Hx. unfold vector in *.
  unfold at2 in Hv. destruct (x !! b) as [xrow|] eqn:Hxb; [|done].
  cbn in Hv.
  assert (b < bs) as Hb.
  { apply lookup_lt_Some in Hxb. lia. }
  assert (t < ns) as Ht.
  { apply lookup_lt_Some in Hv.
    eapply Forall_lookup in Hx as [Hw _]; [|done]. lia. }
  destruct (Hat b t Hb Ht) as (id & _ & v' & Hid & _ & Hembed & Hx' & _).
  unfold at2 in Hx'. rewrite Hxb in Hx'. cbn in Hx'.
  assert (v' = v) as -> by congruence.
  unfold embed in Hembed.
  destruct (embeddings !! id) as [e|] eqn:He; [|done].
  destruct (e !! 2) as [v2|] eqn:He2; [|done].
  injection Hembed as ->.
  exists raw, data, (k * ns * ns), id, e. split_and!; [done..|].
  intros Hlen. rewrite last_lookup, Hlen. done.
Qed.

(** X23. A file with fewer tokens than [batch_size] contributes no batch
    and raises nothing, whatever the store holds. *)
Lemma undersized_file_skipped raw :
  length raw < bs → 1 ≤ ns →
  file_batches embeddings args raw = ([], Done).
Proof.
  intros Hsmall Hns. unfold file_batches.
  destruct (file_data_total args raw) as [data Hdata]; [lia|].
  rewrite Hdata.
  apply file_data_inv in Hdata as (Hbs & _ & Hlen & Hrect).
  rewrite Nat.div_small in Hrect by done.
  destruct (ns =? 0) eqn:Hz; [apply Nat.eqb_eq in Hz; lia|].
  destruct (Py.range _ _) as [|i offsets]; [done|].
  cbn. unfold loop_body.
  assert (∀ a b, comprehension (comprehension (embed embeddings))
                   (Py.cols a b data) = inr (replicate (length data) []))
    as Hx.
  { intros a b. apply comprehension_total.
    clear Hlen. induction Hrect as [|row data Hrow _ IH]; cbn; [constructor|].
    constructor; [|done].
    apply nil_length_inv in Hrow as ->. by rewrite drop_nil, take_nil. }
  rewrite Hx, Hlen.
  destruct bs as [|n]; [lia|]. cbn.
  destruct ns; [lia|done].
Qed.

End Windows.

(** * The windowing pipeline at concrete inputs *)

(** C1. On the file [1 2 3 4 5 6 7] with [batch_size = 1] and
    [num_steps = 2] the generator yields the windows of the columns 0-1 and
    4-5 and skips the columns 2-3: the loop variable advances by [num_steps]
    and is multiplied by [num_steps] again in the slice. The windows of the
    specification are those of the columns 0-1, 2-3 and 4-5. *)
Theorem windows_skip_columns :
  let raw := [1; 2; 3; 4; 5; 6; 7]%Z in
  file_data (GenArgs 2 1 1) raw = inr [raw]
  ∧ file_batches Sample.store (GenArgs 2 1 1) raw
    = ([ ([[[1]; [2]]], [[2; 3]]); ([[[5]; [6]]], [[6; 7]]) ]%Z, Done)
  ∧ spec_x_ids 2 7 [raw] = [ [[1; 2]]; [[3; 4]]; [[5; 6]] ]%Z.
Proof. vm_compute. done. Qed.

(** C2. On the file [1 2 ... 10] with [batch_size = 2] and [num_steps = 2]
    the reshaped array is [[1,2,3,4,5],[6,7,8,9,10]] and the generator yields
    one batch for the file, not two: the second iteration slices the columns
    4-5, finds a window of width 1 and leaves the loop. *)
Theorem ten_tokens_give_one_batch :
  let raw := [1; 2; 3; 4; 5; 6; 7; 8; 9; 10]%Z in
  file_data (GenArgs 2 2 1) raw = inr [[1; 2; 3; 4; 5]; [6; 7; 8; 9; 10]]%Z
  ∧ file_batches Sample.store (GenArgs 2 2 1) raw
    = ([ ([[[1]; [2]]; [[6]; [7]]], [[2; 3]; [7; 8]]) ]%Z, Done).
Proof. vm_compute. done. Qed.

(** C3. On the file [1 2 3 4] with [batch_size = 2] and [num_steps = 2] the
    window of [x] has its full width and the window of [y] runs one column
    past the end of the array: [np.reshape(y, ...)] raises [ValueError], and
    a generator over this file and a second one never reaches the second
    file. *)
Theorem target_overrun_raises :
  file_data (GenArgs 2 2 1) [1; 2; 3; 4]%Z = inr [[1; 2]; [3; 4]]%Z
  ∧ file_batches Sample.store (GenArgs 2 2 1) [1; 2; 3; 4]%Z
    = ([], Raised ValueError)
  ∧ ∀ passes,
      next Sample.store (GenArgs 2 2 1) (S passes)
        [[1; 2; 3; 4]; [1; 2; 3; 4; 5; 6]]%Z 0
      = Throws ValueError.
Proof. split_and!; [by vm_compute..|]. intros passes. by vm_compute. Qed.

(** C5. On a file of three tokens with [batch_size = 2] and [num_steps = 1]
    the reshaped array has one column, the window of [x] is full and the
    window of [y] is empty: [np.reshape(y, ...)] raises [ValueError]. *)
Theorem three_tokens_one_step_raises :
  file_data (GenArgs 1 2 1) [1; 2; 3]%Z = inr [[1]; [2]]%Z
  ∧ file_batches Sample.store (GenArgs 1 2 1) [1; 2; 3]%Z
    = ([], Raised ValueError)
  ∧ ∀ passes,
      next Sample.store (GenArgs 1 2 1) (S passes)
        [[1; 2; 3]; [1; 2; 3; 4; 5; 6]]%Z 0
      = Throws ValueError.
Proof. split_and!; [by vm_compute..|]. intros passes. by vm_compute. Qed.

(** The same file with two steps or more is skipped. *)
Lemma three_tokens_skipped ns :
  2 ≤ ns →
  file_batches Sample.store (GenArgs ns 2 1) [1; 2; 3]%Z = ([], Done).
Proof.
  intros Hns. unfold file_batches.
  change (file_data (GenArgs ns 2 1) [1; 2; 3]%Z) with
    (inr (B := list (list Z)) (A := exn) [[1]; [2]]%Z).
  cbn [num_steps length].
  destruct ns as [|[|[|ns]]]; [lia|lia|by vm_compute|].
  cbn [Nat.eqb]. unfold Py.range.
  replace (3 - S (S (S ns))) with 0 by lia.
  rewrite Nat.div_small by lia. done.
Qed.

(** C4, at the file [1 2 3 4 5 6 7] with [batch_size = 1] and
    [num_steps = 2]. *)
Lemma y_is_next_token_witness :
  let raw := [1; 2; 3; 4; 5; 6; 7]%Z in
  let x := [[[5]; [6]]]%Z in
  let y := [[6; 7]]%Z in
  (x, y) ∈ (generate_arrays_from_list Sample.store (GenArgs 2 1 1) 1 [raw]).1
  ∧ ∃ raw' data c,
      raw' ∈ [raw] ∧ file_data (GenArgs 2 1 1) raw' = inr data
      ∧ ∀ b t, b < 1 → t < 2 →
          ∃ id id' v,
            at2 data b (c + t) = Some id
            ∧ embed Sample.store id = inr v
            ∧ at2 x b t = Some v
            ∧ at2 data b (c + t + 1) = Some id'
            ∧ at2 y b t = Some id'.
Proof.
  intros raw x y.
  assert ((x, y) ∈ (generate_arrays_from_list Sample.store (GenArgs 2 1 1)
                      1 [raw]).1) as Hin.
  { vm_compute. right. left. }
  split; [exact Hin|].
  destruct (y_is_next_token Z Sample.store (GenArgs 2 1 1) 1 [raw] x y Hin)
    as (raw' & data & c & Hraw & Hdata & _ & _ & _ & Hat).
  exists raw', data, c. split_and!; [done|done|].
  intros b t Hb Ht.
  destruct (Hat b t Hb Ht) as (id & id' & v & ? & ? & ? & ? & ? & _).
  exists id, id', v. done.
Defined.

(** C8, at the same input: the vector at [x[0][1]] is field 2 of the entry of
    the id 6. *)
Lemma embedded_vector_is_field_2_witness :
  let raw := [1; 2; 3; 4; 5; 6; 7]%Z in
  let x := [[[5]; [6]]]%Z in
  let y := [[6; 7]]%Z in
  (x, y) ∈ (generate_arrays_from_list Sample.store (GenArgs 2 1 1) 1 [raw]).1
  ∧ at2 x 0 1 = Some [6%Z]
  ∧ ∃ id e, Sample.store !! id = Some e ∧ e !! 2 = Some [6%Z].
Proof.
  intros raw x y.
  assert ((x, y) ∈ (generate_arrays_from_list Sample.store (GenArgs 2 1 1)
                      1 [raw]).1) as Hin.
  { vm_compute. right. left. }
  assert (at2 x 0 1 = Some [6%Z]) as Hv by reflexivity.
  split_and!; [exact Hin|exact Hv|].
  destruct (embedded_vector_is_field_2 Z Sample.store (GenArgs 2 1 1) 1 [raw]
              x y 0 1 [6%Z] Hin Hv)
    as (_ & _ & _ & id & e & _ & _ & _ & He & He2 & _).
  by exists id, e.
Defined.

(** C8 as stated fails: with an entry of four fields for the id 1, the
    vector in [x] is field 2, [[7]], and the last field of the entry is
    [[9]]. *)
Lemma embedded_vector_is_not_last_field :
  file_batches Sample.store4 (GenArgs 1 1 1) [1; 1]%Z
  = ([ ([[[7%Z]]], [[1%Z]]) ], Done)
  ∧ ∃ e, Sample.store4 !! 1%Z = Some e
         ∧ length e = 4
         ∧ last e = Some [9%Z]
         ∧ last e ≠ Some [7%Z].
Proof.
  split; [by vm_compute|].
  exists [[]; []; [7%Z]; [9%Z]]. split_and!; [by vm_compute|done|done|done].
Qed.

(** * The epoch loop *)

Section DriverFacts.

Variable scalar : Type.
Variables session state cost : Type.
Variable zero_state : WPModel → state.
Variable session_run :
  session → WPModel → bool → state → batch scalar →
  result (session * (cost * state)).
Variable cost_zero : cost.
Variable cost_add : cost → cost → cost.
Variable perplexity : cost → nat → cost.
Variable h : gmap ref Config.t.
Variable generator : nat → drawn scalar.
Variable model : WPModel.
Variable eval_op verbose : bool.

Abbreviation loop :=
  (for_step session_run cost_add perplexity
            h generator model eval_op verbose).

(** The first run of the loop is fed the state the loop starts with. *)
Lemma for_step_first n s k st costs iters r :
  runs (loop n s k st costs iters) !! 0 = Some r → fed_state r = st.
Proof.
  destruct n as [|n]; cbn; [done|].
  destruct (generator k) as [b|e|]; cbn; [|done|done].
  destruct (session_run _ _ _ _ _) as [e|[s' [c st']]]; cbn; [done|].
  destruct (_ && _); cbn; by intros [= <-].
Qed.

(** Each run is fed the final state of the run before it. *)
Lemma for_step_chain n s k st costs iters j r r' :
  runs (loop n s k st costs iters) !! j = Some r →
  runs (loop n s k st costs iters) !! S j = Some r' →
  fed_state r' = final_state r.
Proof.
  revert s k st costs iters j.
  induction n as [|n IH]; intros s k st costs iters j; cbn; [done|].
  destruct (generator k) as [b|e|]; cbn; [|done|done].
  destruct (session_run _ _ _ _ _) as [e|[s' [c st']]]; cbn; [done|].
  destruct (_ && _); cbn.
  - destruct j; cbn; done.
  - destruct j as [|j]; cbn.
    + intros [= <-] Hr'. cbn. by apply for_step_first in Hr'.
    + apply IH.
Qed.

(** Run number [j] executes the batch drawn at position [k + j], and its
    final state is the one the engine returned for it. *)
Lemma for_step_run n s k st costs iters j r :
  runs (loop n s k st costs iters) !! j = Some r →
  generator (k + j) = Next (fed_batch r)
  ∧ ∃ s1 s2, session_run s1 model eval_op (fed_state r) (fed_batch r)
             = inr (s2, (cost_out r, final_state r)).
Proof.
  revert s k st costs iters j.
  induction n as [|n IH]; intros s k st costs iters j; cbn; [done|].
  destruct (generator k) as [b|e|] eqn:Hgen; cbn; [|done|done].
  destruct (session_run _ _ _ _ _) as [e|[s' [c st']]] eqn:Hrun; cbn; [done|].
  assert (∀ r0, Some {| fed_state := st; fed_batch := b; cost_out := c;
                        final_state := st' |} = Some r0 →
                generator (k + 0) = Next (fed_batch r0)
                ∧ ∃ s1 s2, session_run s1 model eval_op (fed_state r0)
                             (fed_batch r0)
                           = inr (s2, (cost_out r0, final_state r0))) as H0.
  { intros r0 [= <-]. cbn. rewrite Nat.add_0_r. eauto. }
  destruct (_ && _); cbn.
  - destruct j as [|j]; cbn; [apply H0|done].
  - destruct j as [|j]; cbn; [apply H0|].
    intros Hr. apply IH in Hr. by rewrite <- Nat.add_succ_comm.
Qed.

(** When the generator yields at every position the loop asks for, the engine
    does not raise and nothing is printed, the loop makes its [n] runs and
    returns. *)
Lemma for_step_total n s k st costs iters :
  (∀ j, j < n → ∃ b, generator (k + j) = Next b) →
  (∀ s0 st0 b, ∃ out, session_run s0 model eval_op st0 b = inr out) →
  verbose = false →
  length (runs (loop n s k st costs iters)) = n
  ∧ position (loop n s k st costs iters) = k + n
  ∧ ∃ p, ending_of (loop n s k st costs iters) = Returns p.
Proof.
  intros Hgen Hrun ->. revert s k st costs iters Hgen.
  induction n as [|n IH]; intros s k st costs iters Hgen; cbn.
  - split_and!; [done|lia|eauto].
  - destruct (Hgen 0) as [b Hb]; [lia|]. rewrite Nat.add_0_r in Hb.
    rewrite Hb.
    destruct (Hrun s st b) as [[s' [c st']] ->]. cbn.
    destruct (IH s' (S k) st' (cost_add costs c)
                (iters + getattr (config model) Config.num_steps h))
      as (Hl & Hp & p & He).
    + intros j Hj. destruct (Hgen (S j)) as [b' Hb']; [lia|].
      exists b'. by rewrite <- Hb', Nat.add_succ_comm.
    + split_and!; [by rewrite Hl|lia|eauto].
Qed.

Abbreviation epoch_of :=
  (run_epoch zero_state session_run cost_zero
             cost_add perplexity h generator model eval_op verbose).

(** The runs of [run_epoch] are those of its loop, started from the zero
    state. *)
Lemma run_epoch_runs s k :
  runs (epoch_of s k)
  = runs (loop (Z.to_nat (getattr (config model) Config.epoch_size h))
               s k (zero_state model) cost_zero 0).
Proof. unfold run_epoch. by destruct (Z.to_nat _). Qed.

(** [run_epoch] makes [epoch_size] runs and returns a perplexity when
    [epoch_size] is positive, the generator yields at each of its draws, the
    engine does not raise and nothing is printed. *)
Lemma run_epoch_total s k :
  let n := Z.to_nat (getattr (config model) Config.epoch_size h) in
  0 < n →
  (∀ j, j < n → ∃ b, generator (k + j) = Next b) →
  (∀ s0 st0 b, ∃ out, session_run s0 model eval_op st0 b = inr out) →
  verbose = false →
  length (runs (epoch_of s k)) = n
  ∧ position (epoch_of s k) = k + n
  ∧ ∃ p, ending_of (epoch_of s k) = Returns p.
Proof.
  intros n Hn Hgen Hrun Hv. unfold run_epoch. fold n.
  destruct n as [|n'] eqn:Hn'; [lia|].
  by apply for_step_total.
Qed.

(** C6. Within one call of [run_epoch], the state fed with a batch is the
    final state that the engine returned for the batch before it; the two
    batches are consecutive draws from the generator. *)
Theorem state_carried_between_batches s k j r r' :
  runs (epoch_of s k) !! j = Some r →
  runs (epoch_of s k) !! S j = Some r' →
  fed_state r' = final_state r
  ∧ generator (k + j) = Next (fed_batch r)
  ∧ generator (k + S j) = Next (fed_batch r')
  ∧ ∃ s1 s2, session_run s1 model eval_op (fed_state r) (fed_batch r)
             = inr (s2, (cost_out r, final_state r)).
Proof.
  rewrite run_epoch_runs. intros Hr Hr'.
  pose proof (for_step_chain _ _ _ _ _ _ _ _ _ Hr Hr') as Hchain.
  pose proof (for_step_run _ _ _ _ _ _ _ _ Hr) as [Hb Hrun].
  pose proof (for_step_run _ _ _ _ _ _ _ _ Hr') as [Hb' _].
  done.
Qed.

(** C7, amended. Every call of [run_epoch] starts from the zero state, at
    whatever position [k] of its cycle over the files the generator stands;
    after the first batch the state is only ever the one carried from the
    batch before, also where the generator starts a new pass. *)
Theorem state_reset_at_every_epoch s k r :
  runs (epoch_of s k) !! 0 = Some r →
  fed_state r = zero_state model
  ∧ generator k = Next (fed_batch r)
  ∧ ∀ j r1 r2,
      runs (epoch_of s k) !! j = Some r1 →
      runs (epoch_of s k) !! S j = Some r2 →
      fed_state r2 = final_state r1.
Proof.
  rewrite run_epoch_runs. intros Hr. split_and!.
  - by apply for_step_first in Hr.
  - apply for_step_run in Hr as [Hb _]. by rewrite Nat.add_0_r in Hb.
  - intros j r1 r2. apply for_step_chain.
Qed.

End DriverFacts.

(** C6, at the sample engine: the second run of an epoch is fed the state
    the first run returned. *)
Lemma state_carried_between_batches_witness :
  let e := Sample.valid_epoch 0 in
  let r := {| fed_state := 0; fed_batch := ([[[1%Z]]], [[2%Z]]);
              cost_out := 0; final_state := 1 |} in
  let r' := {| fed_state := 1; fed_batch := ([[[2%Z]]], [[3%Z]]);
               cost_out := 0; final_state := 2 |} in
  runs e !! 0 = Some r ∧ runs e !! 1 = Some r'
  ∧ fed_state r' = final_state r.
Proof.
  intros e r r'.
  assert (runs e !! 0 = Some r) as H0 by (vm_compute; reflexivity).
  assert (runs e !! 1 = Some r') as H1 by (vm_compute; reflexivity).
  split_and!; [exact H0|exact H1|].
  exact (proj1 (state_carried_between_batches Z unit nat nat
                  Sample.zero_state Sample.session_run 0 Nat.add
                  Sample.perplexity Sample.heap Sample.gen_valid Sample.mvalid
                  false false tt 0 0 r r' H0 H1)).
Defined.

(** C7, at the sample engine: an epoch that starts at position 2 of the
    generator starts from the zero state. *)
Lemma state_reset_at_every_epoch_witness :
  let e := Sample.valid_epoch 2 in
  let r := {| fed_state := 0; fed_batch := ([[[3%Z]]], [[4%Z]]);
              cost_out := 0; final_state := 1 |} in
  runs e !! 0 = Some r
  ∧ fed_state r = Sample.zero_state Sample.mvalid.
Proof.
  intros e r.
  assert (runs e !! 0 = Some r) as H0 by (vm_compute; reflexivity).
  split; [exact H0|].
  exact (proj1 (state_reset_at_every_epoch Z unit nat nat
                  Sample.zero_state Sample.session_run 0 Nat.add
                  Sample.perplexity Sample.heap Sample.gen_valid Sample.mvalid
                  false false tt 2 r H0)).
Defined.

(** C7 as stated fails. The file [1 2 3 4] gives three batches a pass. The
    first validation epoch draws two of them and ends in state 2; the second
    one starts in the middle of the pass and is fed the zero state, not the
    state 2; its second batch is the first batch of a new pass and is fed the
    carried state 1, not the zero state. *)
Lemma state_not_reset_at_pass_start :
  let e1 := Sample.valid_epoch 0 in
  let e2 := Sample.valid_epoch (position e1) in
  length (file_batches Sample.store (GenArgs 1 1 1) [1; 2; 3; 4]%Z).1 = 3
  ∧ position e1 = 2
  ∧ final_state <$> last (runs e1) = Some 2
  ∧ fed_batch <$> runs e2 !! 0 = Some ([[[3%Z]]], [[4%Z]])
  ∧ fed_state <$> runs e2 !! 0 = Some (Sample.zero_state Sample.mvalid)
  ∧ Sample.zero_state Sample.mvalid ≠ 2
  ∧ fed_batch <$> runs e2 !! 1
    = (file_batches Sample.store (GenArgs 1 1 1) [1; 2; 3; 4]%Z).1 !! 0
  ∧ fed_state <$> runs e2 !! 1 = Some 1
  ∧ Sample.zero_state Sample.mvalid ≠ 1.
Proof. vm_compute. split_and!; done. Qed.

(** * The configuration phase of [main] *)

Lemma new_empty c : new c ∅ = (0, {[ 0 := c ]}).
Proof. reflexivity. Qed.

Lemma get_epoch_size_frame files c v e :
  get_epoch_size files (Config.set_vocab_size v c) = get_epoch_size files c
  ∧ get_epoch_size files (Config.set_epoch_size e c) = get_epoch_size files c.
Proof. done. Qed.

(** [get_epoch_size] is given the value read from the store; this names the
    configuration [c'] it is read as. *)
Ltac read_as files c' :=
  match goal with
  | |- context [get_epoch_size files ?x] =>
      change (get_epoch_size files x) with (get_epoch_size files c')
  end.

(** The store that [main_setup] builds: the instance at reference 0 is named
    by both [config] and [valid_config], the instance at reference 1 by
    [eval_config]. *)
Lemma main_setup_inv model tr va te su :
  main_setup model tr va te = inr su →
  ∃ c et ev ee,
    get_config model = inr c
    ∧ get_epoch_size tr c = inr et
    ∧ get_epoch_size va c = inr ev
    ∧ get_epoch_size te (Config.set_num_steps 1 (Config.set_batch_size 1 c))
      = inr ee
    ∧ config_ref su = 0 ∧ valid_config_ref su = 0 ∧ eval_config_ref su = 1
    ∧ store su !! 0
      = Some (Config.set_epoch_size ev (Config.set_vocab_size 126930 c))
    ∧ store su !! 1
      = Some (Config.set_epoch_size ee
                (Config.set_vocab_size 126930
                   (Config.set_num_steps 1 (Config.set_batch_size 1 c))))
    ∧ gen_test_args su
      = GenArgs (Config.num_steps c) (Config.batch_size c)
                (Config.embedding_size c)
    ∧ m su = WPModel_init true 0 (store su)
    ∧ mvalid su = WPModel_init false 0 (store su)
    ∧ mtest su = WPModel_init false 1 (store su).
Proof.
  unfold main_setup. destruct (get_config model) as [e|c] eqn:Hc; [done|].
  cbn -[new]. rewrite new_empty.
  change (new c (setattr 0 (Config.set_vocab_size 126930) {[0 := c]}))
    with (1, <[1 := c]> ({[0 := Config.set_vocab_size 126930 c]}
                           : gmap ref Config.t)).
  cbn -[setattr getattr].
  read_as tr c.
  destruct (get_epoch_size tr c) as [e|et] eqn:Het; [done|].
  cbn -[setattr getattr].
  read_as va c.
  destruct (get_epoch_size va c) as [e|ev] eqn:Hev; [done|].
  cbn -[setattr getattr].
  read_as te (Config.set_num_steps 1 (Config.set_batch_size 1 c)).
  destruct (get_epoch_size te _) as [e|ee] eqn:Hee; [done|].
  cbn -[setattr getattr]. intros [= <-].
  exists c, et, ev, ee. cbn -[setattr getattr].
  split_and!; first [assumption | reflexivity].
Qed.



(** C9. [config] and [valid_config] name one object, and the training model
    keeps a reference to it: once [main] has set the three epoch sizes, the
    epoch size the training model reads is the one computed from the
    validation list, whatever the training list is. *)
Theorem train_epoch_size_is_validation_size model tr va te su :
  main_setup model tr va te = inr su →
  valid_config_ref su = config_ref su
  ∧ config (m su) = config_ref su
  ∧ (∃ c, get_config model = inr c
          ∧ get_epoch_size va c
            = inr (getattr (config (m su)) Config.epoch_size (store su)))
  ∧ ∀ tr' su',
      main_setup model tr' va te = inr su' →
      getattr (config (m su')) Config.epoch_size (store su')
      = getattr (config (m su)) Config.epoch_size (store su).
Proof.
  intros Hsu.
  pose proof (main_setup_inv _ _ _ _ _ Hsu)
    as (c & et & ev & ee & Hc & _ & Hev & _ & Hr & Hrv & _ & H0 & _ & _
        & Hm & _).
  assert (getattr (config (m su)) Config.epoch_size (store su) = ev) as Hsz.
  { rewrite Hm. unfold getattr. cbn.
    by rewrite (lookup_total_correct _ _ _ H0). }
  split_and!; [congruence|by rewrite Hm, Hr|exists c; by rewrite Hsz|].
  intros tr' su' Hsu'.
  pose proof (main_setup_inv _ _ _ _ _ Hsu')
    as (c' & et' & ev' & ee' & Hc' & _ & Hev' & _ & _ & _ & _ & H0' & _ & _
        & Hm' & _).
  rewrite Hsz, Hm'. unfold getattr. cbn.
  rewrite (lookup_total_correct _ _ _ H0'). cbn. congruence.
Qed.

(** C9, at the preset [test] with a training file of 100 tokens and a
    validation file of 50: the estimator gives 4 for the training list and the
    training model reads 2. *)
Lemma train_epoch_size_is_validation_size_witness :
  ∃ su,
    main_setup "test" [replicate 100 1%Z] [replicate 50 1%Z] [] = inr su
    ∧ get_epoch_size [replicate 100 1%Z] TestConfig = inr 4%Z
    ∧ get_epoch_size [replicate 50 1%Z] TestConfig = inr 2%Z
    ∧ getattr (config (m su)) Config.epoch_size (store su) = 2%Z.
Proof.
  destruct (main_setup "test" [replicate 100 1%Z] [replicate 50 1%Z] [])
    as [e|su] eqn:Hsu; [by vm_compute in Hsu|].
  exists su. split_and!; [done|by vm_compute|by vm_compute|].
  destruct (train_epoch_size_is_validation_size _ _ _ _ _ Hsu)
    as (_ & _ & (c & Hc & Hev) & _).
  injection Hc as <-.
  assert (get_epoch_size [replicate 50 1%Z] TestConfig = inr 2%Z) as H2
    by (by vm_compute).
  rewrite H2 in Hev. by injection Hev as <-.
Defined.

(** C10. The test generator is built from [config], not from [eval_config]:
    every batch it yields has [x] of shape
    [(config.batch_size, config.num_steps, embedding_size)] and [y] of shape
    [(config.batch_size, config.num_steps)], while the placeholders of the
    test model have the shapes [(1, 1, embedding_size)] and [(1, 1)]; the
    batch does not have the placeholders' shapes when the preset's
    [batch_size] or [num_steps] is not 1. *)
Theorem test_batches_have_config_shape (scalar : Type)
  (embeddings : gmap Z (entry scalar)) model tr va te su c passes x y :
  main_setup model tr va te = inr su →
  get_config model = inr c →
  (x, y) ∈ (generate_arrays_from_list embeddings (gen_test_args su)
              passes te).1 →
  has_shape3 (Config.batch_size c, Config.num_steps c, Config.embedding_size c) x
  ∧ has_shape2 (Config.batch_size c, Config.num_steps c) y
  ∧ inputs_shape (mtest su) = (1, 1, Config.embedding_size c)
  ∧ targets_shape (mtest su) = (1, 1)
  ∧ (Config.batch_size c ≠ 1 ∨ Config.num_steps c ≠ 1 →
     inputs_shape (mtest su)
     ≠ (Config.batch_size c, Config.num_steps c, Config.embedding_size c)
     ∧ targets_shape (mtest su) ≠ (Config.batch_size c, Config.num_steps c)
     ∧ ¬ has_shape3 (inputs_shape (mtest su)) x
     ∧ ¬ has_shape2 (targets_shape (mtest su)) y).
Proof.
  intros Hsu Hc Hin.
  pose proof (main_setup_inv _ _ _ _ _ Hsu)
    as (c' & et & ev & ee & Hc' & _ & _ & _ & _ & _ & _ & _ & H1 & Hargs
        & _ & _ & Hmt).
  assert (c' = c) as -> by congruence.
  rewrite Hargs in Hin.
  apply generate_elem in Hin as (raw & _ & Hin).
  apply list_elem_of_lookup in Hin as [k Hk].
  apply file_batches_at in Hk as (data & _ & Hbs & Hns & Hx & Hy & _).
  cbn in Hbs, Hns, Hx, Hy.
  assert (inputs_shape (mtest su) = (1, 1, Config.embedding_size c)) as Hi.
  { rewrite Hmt. unfold WPModel_init, getattr. cbn.
    by rewrite (lookup_total_correct _ _ _ H1). }
  assert (targets_shape (mtest su) = (1, 1)) as Ht.
  { rewrite Hmt. unfold WPModel_init, getattr. cbn.
    by rewrite (lookup_total_correct _ _ _ H1). }
  split_and!; [done..|].
  intros Hne. rewrite Hi, Ht.
  destruct Hx as [Hlx Hrx], Hy as [Hly Hry]. cbn in Hlx, Hrx, Hly, Hry.
  split_and!.
  - intros [= Hb1 Hn1]. destruct Hne; congruence.
  - intros [= Hb1 Hn1]. destruct Hne; congruence.
  - intros [Hlx' Hrx']. cbn in Hlx', Hrx'.
    destruct x as [|row x]; [cbn in Hlx; lia|].
    apply Forall_cons in Hrx as [[Hw _] _].
    apply Forall_cons in Hrx' as [[Hw' _] _].
    cbn in Hlx, Hlx'. destruct Hne; lia.
  - intros [Hly' Hry']. cbn in Hly', Hry'.
    destruct y as [|row y]; [cbn in Hly; lia|].
    apply Forall_cons in Hry as [Hw _].
    apply Forall_cons in Hry' as [Hw' _].
    cbn in Hly, Hly'. destruct Hne; lia.
Qed.


(** C10, at the preset [test] with a test file of 30 tokens: the batch has
    the shape [(10, 2, 200)], the placeholder the shape [(1, 1, 200)]. *)
Lemma test_batches_have_config_shape_witness :
  let te := [replicate 30 1%Z] in
  let x := replicate 10 (replicate 2 (replicate 200 0%Z)) in
  let y := replicate 10 [1%Z; 1%Z] in
  ∃ su,
    main_setup "test" [] [] te = inr su
    ∧ get_config "test" = inr TestConfig
    ∧ (x, y) ∈ (generate_arrays_from_list Sample.store200 (gen_test_args su)
                  1 te).1
    ∧ has_shape3 (10, 2, 200) x
    ∧ inputs_shape (mtest su) = (1, 1, 200)
    ∧ ¬ has_shape3 (inputs_shape (mtest su)) x.
Proof.
  intros te x y.
  destruct (main_setup "test" [] [] te) as [e|su] eqn:Hsu;
    [by vm_compute in Hsu|].
  assert (get_config "test" = inr TestConfig) as Hc by reflexivity.
  assert ((x, y) ∈ (generate_arrays_from_list Sample.store200
                      (gen_test_args su) 1 te).1) as Hin.
  { vm_compute in Hsu. injection Hsu as <-. vm_compute. left. }
  exists su.
  destruct (test_batches_have_config_shape Z Sample.store200 _ _ _ _ _ _ _ _ _
              Hsu Hc Hin) as (Hx & _ & Hi & _ & Hne).
  split_and!; [done|done|done|exact Hx|exact Hi|].
  apply Hne. left. cbn. lia.
Defined.

(** * More on the windowing generator *)

Lemma as_array_total {A : Type} w (m : list (list A)) :
  Forall (λ row, length row = w) m →
  ∃ w', Py.as_array m = inr (w', concat m).
Proof.
  intros Hm. unfold Py.as_array. destruct m as [|r m']; [by exists 0|].
  assert (forallb (λ r', length r' =? length r) (r :: m') = true) as ->.
  { apply Is_true_true, forallb_True.
    pose proof Hm as [Hr _]%Forall_cons.
    eapply Forall_impl; [exact Hm|]. cbn. intros row Hrow.
    apply Is_true_true, Nat.eqb_eq. lia. }
  by exists (length r).
Qed.

Lemma comprehension_exists {A B : Type} (f : A → result B) (P : B → Prop) l :
  Forall (λ a, ∃ b, f a = inr b ∧ P b) l →
  ∃ bs, comprehension f l = inr bs ∧ length bs = length l ∧ Forall P bs.
Proof.
  induction 1 as [|a l (b & Hb & HP) _ (bs & Hbs & Hlen & HPs)]; cbn.
  - by exists [].
  - exists (b :: bs). rewrite Hb. cbn. rewrite Hbs. cbn.
    split_and!; [done|by rewrite Hlen|by constructor].
Qed.

(** An exception of the body at the first element escapes from the
    comprehension. *)
Lemma comprehension_first_raises {A B : Type} (f : A → result B) a l e :
  f a = inl e → comprehension f (a :: l) = inl e.
Proof. intros Ha. cbn. by rewrite Ha. Qed.

Lemma Forall_layout {A : Type} (P : A → Prop) rows cols (flat : list A) :
  Forall P flat → Forall (Forall P) (Py.layout rows cols flat).
Proof.
  intros Hflat. unfold Py.layout. apply Forall_fmap, Forall_forall.
  intros r _. cbn. by apply Forall_take, Forall_drop.
Qed.

Lemma Forall_cols {A : Type} (P : A → Prop) a b (m : list (list A)) :
  Forall (Forall P) m → Forall (Forall P) (Py.cols a b m).
Proof.
  intros Hm. unfold Py.cols. apply Forall_fmap.
  eapply Forall_impl; [exact Hm|]. cbn. intros row Hrow.
  by apply Forall_take, Forall_drop.
Qed.

Section Iterations.

Variable scalar : Type.
Variable embeddings : gmap Z (entry scalar).
Variable args : gen_args.

Abbreviation bs := (batch_size args).
Abbreviation ns := (num_steps args).
Abbreviation emb := (embedding_size args).

Lemma reshape_x_total (x : list (list (vector scalar))) :
  length x = bs →
  Forall (λ row, length row = ns) x →
  Forall (Forall (λ v, length v = emb)) x →
  reshape_x args x = inr x.
Proof.
  intros Hlen Hrows Hvecs. unfold reshape_x. unfold vector in *.
  destruct (as_array_total _ _ Hrows) as [w ->]. cbn.
  assert (Forall (λ v : list scalar, length v = emb) (concat x)) as Hc.
  { by apply Forall_concat. }
  destruct (as_array_total _ _ Hc) as [d ->]. cbn.
  assert (length (concat x) = bs * ns) as Hn.
  { rewrite (length_concat_uniform ns) by done. lia. }
  assert (length (concat (concat x)) = bs * ns * emb) as ->.
  { rewrite (length_concat_uniform emb) by done. lia. }
  rewrite Nat.eqb_refl.
  rewrite (layout_concat (bs * ns) emb) by done.
  by rewrite layout_concat.
Qed.

(** The ids of the reshaped array are ids of the file. *)
Lemma file_data_ids (P : Z → Prop) raw data :
  file_data args raw = inr data → Forall P raw → Forall (Forall P) data.
Proof.
  intros (_ & -> & _ & _)%file_data_inv Hraw.
  by apply Forall_layout, Forall_take.
Qed.

Section Body.

Variable data : list (list Z).
Variable batch_len : nat.
Hypothesis Hbs : 1 ≤ bs.
Hypothesis Hns : 1 ≤ ns.
Hypothesis Hlen : length data = bs.
Hypothesis Hrect : Forall (λ row, length row = batch_len) data.
Hypothesis Hcov : Forall (λ row, covers embeddings args row) data.

Lemma window_embeds a :
  a + ns ≤ batch_len →
  ∃ x, comprehension (comprehension (embed embeddings))
         (Py.cols a (a + ns) data) = inr x
       ∧ length x = bs
       ∧ Forall (λ row, length row = ns) x
       ∧ Forall (Forall (λ v, length v = emb)) x.
Proof.
  intros Hfit.
  destruct (comprehension_exists (comprehension (embed embeddings))
              (λ row, length row = ns ∧ Forall (λ v, length v = emb) row)
              (Py.cols a (a + ns) data)) as (x & Hx & Hlx & HP).
  { pose proof (cols_rows a (a + ns) _ _ Hrect) as Hw.
    pose proof (Forall_cols _ a (a + ns) _ Hcov) as Hc.
    apply Forall_forall. intros row Hin.
    eapply Forall_forall in Hw; [|done].
    eapply Forall_forall in Hc; [|done].
    destruct (comprehension_exists (embed embeddings)
                (λ v, length v = emb) row Hc) as (vs & Hvs & Hlv & Hv).
    exists vs. split_and!; [done|lia|done]. }
  exists x. rewrite cols_length in Hlx.
  split_and!; [done|lia| |].
  - eapply Forall_impl; [exact HP|]. by intros ? [? ?].
  - eapply Forall_impl; [exact HP|]. by intros ? [? ?].
Qed.

(** The iteration yields when the window and its target fit in the array. *)
Lemma loop_body_fits i :
  i * ns + ns + 1 ≤ batch_len →
  ∃ b, loop_body embeddings args data i = Yield b.
Proof.
  intros Hfit. unfold loop_body.
  replace ((i + 1) * ns) with (i * ns + ns) by lia.
  destruct (window_embeds (i * ns)) as (x & -> & Hlx & Hrows & Hvecs); [lia|].
  destruct x as [|x0 x]; [cbn in Hlx; lia|].
  pose proof Hrows as [Hx0 _]%Forall_cons.
  destruct (length x0 <? ns) eqn:Hshort; [apply Nat.ltb_lt in Hshort; lia|].
  rewrite reshape_x_total by done.
  unfold reshape_y, Py.reshape.
  rewrite (length_concat_uniform ns), cols_length, Hlen, Nat.eqb_refl.
  - eauto.
  - eapply Forall_impl; [exact (cols_rows _ _ _ _ Hrect)|].
    cbn. intros row ->. lia.
Qed.

(** It raises [ValueError] when the window fits exactly and its target is one
    column too long. *)
Lemma loop_body_overrun i :
  i * ns + ns = batch_len →
  loop_body embeddings args data i = Raise ValueError.
Proof.
  intros Hfit. unfold loop_body.
  replace ((i + 1) * ns) with (i * ns + ns) by lia.
  destruct (window_embeds (i * ns)) as (x & -> & Hlx & Hrows & Hvecs); [lia|].
  destruct x as [|x0 x]; [cbn in Hlx; lia|].
  pose proof Hrows as [Hx0 _]%Forall_cons.
  destruct (length x0 <? ns) eqn:Hshort; [apply Nat.ltb_lt in Hshort; lia|].
  rewrite reshape_x_total by done.
  unfold reshape_y, Py.reshape.
  rewrite (length_concat_uniform (ns - 1)), cols_length, Hlen.
  - destruct (bs * (ns - 1) =? bs * ns) eqn:Heq; [|done].
    apply Nat.eqb_eq in Heq. nia.
  - eapply Forall_impl; [exact (cols_rows _ _ _ _ Hrect)|].
    cbn. intros row ->. lia.
Qed.

(** It leaves the loop when the window is short. The ids of the short window
    are looked up before the width is tested. *)
Lemma loop_body_short i :
  batch_len < i * ns + ns →
  loop_body embeddings args data i = Break.
Proof.
  intros Hshort. unfold loop_body.
  destruct (comprehension_exists (comprehension (embed embeddings))
              (λ row, length row < ns)
              (Py.cols (i * ns) ((i + 1) * ns) data)) as (x & -> & Hlx & HP).
  { pose proof (cols_rows (i * ns) ((i + 1) * ns) _ _ Hrect) as Hw.
    pose proof (Forall_cols _ (i * ns) ((i + 1) * ns) _ Hcov) as Hc.
    apply Forall_forall. intros row Hin.
    eapply Forall_forall in Hw; [|done].
    eapply Forall_forall in Hc; [|done].
    destruct (comprehension_exists (embed embeddings)
                (λ v, length v = emb) row Hc) as (vs & Hvs & Hlv & Hv).
    exists vs. split; [done|]. lia. }
  rewrite cols_length in Hlx.
  destruct x as [|x0 x]; [cbn in Hlx; lia|].
  apply Forall_cons in HP as [Hx0 _].
  by apply Nat.ltb_lt in Hx0 as ->.
Qed.

End Body.

End Iterations.

Lemma range_count stop step k :
  1 ≤ step → k < (stop + step - 1) / step ↔ k * step < stop.
Proof.
  intros Hstep.
  pose proof (Nat.div_mod_eq (stop + step - 1) step).
  pose proof (Nat.mod_upper_bound (stop + step - 1) step).
  nia.
Qed.

Lemma range_split stop step k :
  k ≤ (stop + step - 1) / step →
  Py.range stop step
  = ((λ j, j * step) <$> seq 0 k)
    ++ ((λ j, j * step) <$> seq k ((stop + step - 1) / step - k)).
Proof.
  intros Hk. unfold Py.range. rewrite <- fmap_app, <- seq_app.
  do 2 f_equal. lia.
Qed.

Section FileRuns.

Variable scalar : Type.
Variable embeddings : gmap Z (entry scalar).
Variable args : gen_args.

Abbreviation bs := (batch_size args).
Abbreviation ns := (num_steps args).
Abbreviation emb := (embedding_size args).

(** A run of iterations that all yield gives one batch each, and the loop
    goes on with the offsets after them. *)
Lemma for_i_yields data l1 l2 :
  Forall (λ i, ∃ b, loop_body embeddings args data i = Yield b) l1 →
  for_i embeddings args data (l1 ++ l2)
  = ((for_i embeddings args data l1).1 ++ (for_i embeddings args data l2).1,
     (for_i embeddings args data l2).2)
  ∧ length (for_i embeddings args data l1).1 = length l1.
Proof.
  induction 1 as [|i l1 [b Hb] _ [IH1 IH2]]; cbn.
  - by destruct (for_i _ _ _ l2).
  - rewrite Hb. rewrite IH1.
    destruct (for_i _ _ _ l1) as [bs1 o1]. cbn in *. by rewrite IH2.
Qed.

Section OneFile.

Variable raw : list Z.
Hypothesis Hbs : 1 ≤ bs.
Hypothesis Hns : 1 ≤ ns.
Hypothesis Hcov : covers embeddings args raw.

Abbreviation batch_len := (length raw / bs).

Lemma batch_len_le : batch_len ≤ length raw.
Proof. apply Nat.Div0.div_le_upper_bound. nia. Qed.

(** The iterations below [k] all yield when window [k - 1] and its target
    fit. *)
Lemma yields_below data k :
  file_data args raw = inr data →
  (∀ j, j < k → j * ns * ns + ns + 1 ≤ batch_len) →
  Forall (λ i, ∃ b, loop_body embeddings args data i = Yield b)
         ((λ j, j * ns) <$> seq 0 k).
Proof.
  intros Hdata Hfit.
  pose proof (file_data_inv _ _ _ Hdata) as (_ & _ & Hlen & Hrect).
  apply Forall_fmap, Forall_forall. intros j [_ Hj]%elem_of_seq. cbn.
  eapply loop_body_fits; [done|done|done|done| |].
  - by eapply file_data_ids.
  - apply Hfit. lia.
Qed.

Lemma file_batches_split data k :
  file_data args raw = inr data →
  (∀ j, j < k → j * ns * ns + ns + 1 ≤ batch_len) →
  k ≤ (length raw - ns + ns - 1) / ns →
  let rest := (λ j, j * ns)
                <$> seq k ((length raw - ns + ns - 1) / ns - k) in
  length ((file_batches embeddings args raw).1)
  = k + length (for_i embeddings args data rest).1
  ∧ (file_batches embeddings args raw).2
    = (for_i embeddings args data rest).2.
Proof.
  intros Hdata Hfit Hk rest. unfold file_batches. rewrite Hdata.
  destruct (ns =? 0) eqn:Hz; [apply Nat.eqb_eq in Hz; lia|].
  rewrite (range_split _ _ k) by done. fold rest.
  destruct (for_i_yields data ((λ j, j * ns) <$> seq 0 k) rest) as [-> Hl].
  { by apply yields_below. }
  cbn. rewrite length_app, Hl, length_fmap, length_seq. done.
Qed.

(** Window [k] that fits with its target is within the loop's range. *)
Lemma fits_in_range k :
  k * ns * ns + ns + 1 ≤ batch_len →
  k < (length raw - ns + ns - 1) / ns.
Proof.
  intros Hfit. apply range_count; [done|].
  pose proof batch_len_le. nia.
Qed.

(** X1. Under a store that covers the file, batch number [k] of the file
    exists exactly when window [k], cut at column
    [k * num_steps * num_steps], fits in the reshaped array together with its
    target, which lies one column further. *)
Theorem batch_exists_iff_window_fits k :
  is_Some ((file_batches embeddings args raw).1 !! k)
  ↔ k * ns * ns + ns + 1 ≤ batch_len.
Proof.
  split.
  - intros [[x y] Hk].
    by apply file_batches_lookup in Hk as (_ & _ & _ & _ & _ & _ & Hfit & _).
  - intros Hfit.
    destruct (file_data_total args raw Hbs) as [data Hdata].
    destruct (file_batches_split data (S k) Hdata) as [Hl _].
    + intros j Hj. nia.
    + by apply fits_in_range.
    + apply lookup_lt_is_Some_2. lia.
Qed.

(** X2. Under a store that covers the file, when window [k] is within the
    loop's range and ends exactly at the last column, the file yields [k]
    batches and then [np.reshape(y, ...)] raises [ValueError]. *)
Theorem target_overrun_raises_after k :
  k * ns + ns < length raw →
  batch_len = k * ns * ns + ns →
  length (file_batches embeddings args raw).1 = k
  ∧ (file_batches embeddings args raw).2 = Raised ValueError.
Proof.
  intros Hrange Hexact.
  destruct (file_data_total args raw Hbs) as [data Hdata].
  pose proof (file_data_inv _ _ _ Hdata) as (_ & _ & Hlen & Hrect).
  assert (k < (length raw - ns + ns - 1) / ns) as Hk.
  { apply range_count; [done|lia]. }
  destruct (file_batches_split data k Hdata) as [Hl Ho].
  { intros j Hj. nia. }
  { lia. }
  destruct ((length raw - ns + ns - 1) / ns - k) as [|m] eqn:Hm; [lia|].
  cbn in Hl, Ho.
  assert (loop_body embeddings args data (k * ns) = Raise ValueError) as Hbody.
  { eapply loop_body_overrun; [done|done|done|done| |lia].
    by eapply file_data_ids. }
  rewrite Hbody in Hl, Ho.
  cbn in Hl, Ho. split; [lia|done].
Qed.

(** X3. Under a store that covers the file, when no window within the
    loop's range ends exactly at the last column, the file raises nothing:
    the loop runs to its end or leaves by [break]. *)
Theorem file_ends_normally :
  (∀ k, k * ns + ns < length raw → batch_len ≠ k * ns * ns + ns) →
  (file_batches embeddings args raw).2 = Done.
Proof.
  intros Hnot.
  destruct (file_data_total args raw Hbs) as [data Hdata].
  pose proof (file_data_inv _ _ _ Hdata) as (_ & _ & Hlen & Hrect).
  set (R := (length raw - ns + ns - 1) / ns).
  set (K := if decide (ns + 1 ≤ batch_len)
            then (batch_len - ns - 1) / (ns * ns) + 1 else 0).
  assert ((∀ j, j < K → j * ns * ns + ns + 1 ≤ batch_len)
          ∧ batch_len < K * ns * ns + ns + 1) as [Hbelow HK].
  { unfold K. destruct (decide (ns + 1 ≤ batch_len)) as [Hge|Hlt].
    - pose proof (Nat.div_mod_eq (batch_len - ns - 1) (ns * ns)).
      pose proof (Nat.mod_upper_bound (batch_len - ns - 1) (ns * ns)).
      split; [intros j Hj|]; nia.
    - split; [intros j Hj|]; lia. }
  destruct (decide (K < R)) as [Hin|Hout].
  - destruct (file_batches_split data K Hdata) as [_ Ho]; [done|lia|].
    fold R in Ho. rewrite Ho.
    destruct (R - K) as [|m] eqn:Hm; [lia|]. cbn.
    assert (K * ns < length raw - ns) as Hr by (by apply range_count).
    assert (loop_body embeddings args data (K * ns) = Break) as ->; [|done].
    eapply loop_body_short; [done|done|done|done|by eapply file_data_ids|].
    specialize (Hnot K). lia.
  - destruct (file_batches_split data R Hdata) as [_ Ho]; [|done|].
    { intros j Hj. apply Hbelow. lia. }
    fold R in Ho. rewrite Ho, Nat.sub_diag. done.
Qed.

End OneFile.

(** X4. An exception of the lookup of the file's first token escapes from
    the generator before any batch: [KeyError] for an id without entry,
    [IndexError] for an entry with fewer than three fields. *)
Theorem first_token_lookup_error id rest e :
  1 ≤ ns →
  bs ≤ length (id :: rest) →
  ns < length (id :: rest) →
  1 ≤ bs →
  embed embeddings id = inl e →
  file_batches embeddings args (id :: rest) = ([], Raised e).
Proof.
  intros Hns Hlen Hrange Hbs He. unfold file_batches, file_data, Py.reshape.
  destruct (bs =? 0) eqn:Hz; [apply Nat.eqb_eq in Hz; lia|].
  set (bl := length (id :: rest) / bs).
  assert (1 ≤ bl) as Hbl.
  { apply Nat.div_le_lower_bound; lia. }
  assert (bs * bl ≤ length (id :: rest)) as Hle.
  { apply Nat.Div0.mul_div_le. }
  rewrite length_take, Nat.min_l, Nat.eqb_refl by done.
  destruct (ns =? 0) eqn:Hz'; [apply Nat.eqb_eq in Hz'; lia|].
  assert (1 ≤ (length (id :: rest) - ns + ns - 1) / ns) as Hr.
  { apply Nat.div_le_lower_bound; lia. }
  unfold Py.range.
  destruct ((length (id :: rest) - ns + ns - 1) / ns) as [|r]; [lia|].
  destruct bs as [|b'] eqn:Ebs; [lia|].
  destruct bl as [|l'] eqn:Ebl; [lia|].
  destruct ns as [|n'] eqn:Ens; [lia|].
  cbn -[Nat.div Nat.mul]. unfold loop_body.
  cbn -[Nat.div]. rewrite Ens. cbn -[Nat.div]. rewrite He. done.
Qed.

End FileRuns.

Lemma lookup_concat_replicate {A : Type} (l : list A) n q r :
  q < n → r < length l →
  concat (replicate n l) !! (q * length l + r) = l !! r.
Proof.
  revert q. induction n as [|n IH]; intros q Hq Hr; [lia|]. cbn.
  destruct q as [|q]; cbn.
  - by apply lookup_app_l.
  - rewrite lookup_app_r by lia.
    replace (length l + q * length l + r - length l)
      with (q * length l + r) by lia.
    apply IH; [lia|done].
Qed.

Section Generator.

Variable scalar : Type.
Variable embeddings : gmap Z (entry scalar).
Variable args : gen_args.

Abbreviation bs := (batch_size args).
Abbreviation ns := (num_steps args).
Abbreviation emb := (embedding_size args).

(** X5. The reshaped array of a file exists whenever [batch_size] is not
    zero; it has [batch_size] rows of [n_words // batch_size] columns, and row
    [b] is the contiguous chunk of the token stream that starts at
    [b * batch_len]. *)
Theorem file_data_row_major raw :
  1 ≤ bs →
  ∃ data,
    file_data args raw = inr data
    ∧ has_shape2 (bs, length raw / bs) data
    ∧ ∀ b j, b < bs → j < length raw / bs →
        at2 data b j = raw !! (b * (length raw / bs) + j)
        ∧ is_Some (at2 data b j).
Proof.
  intros Hbs. destruct (file_data_total args raw Hbs) as [data Hdata].
  pose proof (file_data_inv _ _ _ Hdata) as (_ & _ & Hlen & Hrect).
  exists data. split_and!; [done|done|].
  intros b j Hb Hj.
  destruct (lookup_lt_is_Some_2 data b) as [row Hrow]; [lia|].
  assert (length row = length raw / bs) as Hrl.
  { by eapply Forall_lookup in Hrect. }
  unfold at2. rewrite Hrow. cbn. split.
  - by eapply file_data_lookup.
  - apply lookup_lt_is_Some_2. lia.
Qed.

(** X6. Every batch the generator yields has [x] of shape
    [(batch_size, num_steps, embedding_size)] and [y] of shape
    [(batch_size, num_steps)], whatever the files and the store are. *)
Theorem yielded_batches_have_shape passes files x y :
  (x, y) ∈ (generate_arrays_from_list embeddings args passes files).1 →
  1 ≤ bs ∧ 1 ≤ ns
  ∧ has_shape3 (bs, ns, emb) x ∧ has_shape2 (bs, ns) y.
Proof.
  intros (raw & _ & Hin)%generate_elem.
  apply list_elem_of_lookup in Hin as [k Hk].
  by apply file_batches_at in Hk as (_ & _ & ? & ? & ? & ? & _).
Qed.


(** X8. One pass over files that all end normally yields the batches of
    the files in the order of the list. *)
Theorem pass_yields_files_in_order files :
  Forall (λ raw, (file_batches embeddings args raw).2 = Done) files →
  for_files embeddings args files
  = (concat ((λ raw, (file_batches embeddings args raw).1) <$> files), Done).
Proof.
  induction 1 as [|raw files Hraw _ IH]; cbn; [done|].
  destruct (file_batches _ _ raw) as [bs' o]. cbn in Hraw. subst o.
  by rewrite IH.
Qed.

Lemma generate_done pass passes files :
  for_files embeddings args files = (pass, Done) →
  generate_arrays_from_list embeddings args passes files
  = (concat (replicate passes pass), Done).
Proof.
  intros Hpass. induction passes as [|n IH]; cbn; [done|].
  by rewrite Hpass, IH.
Qed.

(** X9. The generator cycles: when a pass over the files ends normally with
    the batches [pass], the draw number [q * length pass + r] is batch [r] of
    the pass, for every [q] within the passes followed. *)
Theorem generator_cycles pass passes files q r b :
  for_files embeddings args files = (pass, Done) →
  pass !! r = Some b →
  q < passes →
  next embeddings args passes files (q * length pass + r) = Next b.
Proof.
  intros Hpass Hr Hq. unfold next.
  rewrite (generate_done _ _ _ Hpass).
  rewrite lookup_concat_replicate; [by rewrite Hr|done|].
  by eapply lookup_lt_Some.
Qed.

(** X10. When a pass over the files yields nothing and raises nothing (an
    empty file list, or files that are all too small), the generator never
    yields: the caller of [next()] waits for ever. *)
Theorem generator_spins_without_batches passes files k :
  for_files embeddings args files = ([], Done) →
  next embeddings args passes files k = Spinning.
Proof.
  intros Hpass. unfold next. rewrite (generate_done _ _ _ Hpass).
  assert (concat (replicate passes ([] : list (batch scalar))) = []) as ->.
  { induction passes as [|n IH]; [done|]. cbn. by rewrite IH. }
  done.
Qed.



End Generator.

(** * More on the epoch loop *)

Section EpochFacts.

Variable scalar : Type.
Variables session state cost : Type.
Variable zero_state : WPModel → state.
Variable session_run :
  session → WPModel → bool → state → batch scalar →
  result (session * (cost * state)).
Variable cost_zero : cost.
Variable cost_add : cost → cost → cost.
Variable perplexity : cost → nat → cost.
Variable h : gmap ref Config.t.
Variable generator : nat → drawn scalar.
Variable model : WPModel.
Variable eval_op verbose : bool.

Abbreviation loop :=
  (for_step session_run cost_add perplexity h generator model eval_op verbose).
Abbreviation epoch_of :=
  (run_epoch zero_state session_run cost_zero cost_add perplexity
             h generator model eval_op verbose).
Abbreviation epoch_size := (getattr (config model) Config.epoch_size h).
Abbreviation steps := (getattr (config model) Config.num_steps h).


Lemma run_epoch_verbose_small s k b s' c st' :
  verbose = true →
  (1 ≤ epoch_size < 10)%Z →
  generator k = Next b →
  session_run s model eval_op (zero_state model) b = inr (s', (c, st')) →
  epoch_of s k
  = {| runs := [ {| fed_state := zero_state model; fed_batch := b;
                    cost_out := c; final_state := st' |} ];
       ending_of := Escapes ZeroDivisionError;
       position := S k;
       session_of := s' |}.
Proof.
  intros Hv Hn Hgen Hrun. unfold run_epoch.
  destruct (Z.to_nat epoch_size) as [|n] eqn:Hsz; [lia|].
  cbn. rewrite Hgen, Hrun, Hv. cbn.
  assert ((epoch_size / 10)%Z = 0%Z) as ->.
  { apply Z.div_small. lia. }
  done.
Qed.

(** X13. With [verbose] and an [epoch_size] from 1 to 9, the first step
    runs the engine on the first batch and then
    [step % (config.epoch_size // 10)] raises [ZeroDivisionError]: the epoch
    ends after one run, with the session that run left. *)
Theorem verbose_small_epoch_raises s k b s' c st' :
  verbose = true →
  (1 ≤ epoch_size < 10)%Z →
  generator k = Next b →
  session_run s model eval_op (zero_state model) b = inr (s', (c, st')) →
  runs (epoch_of s k)
  = [ {| fed_state := zero_state model; fed_batch := b;
         cost_out := c; final_state := st' |} ]
  ∧ ending_of (epoch_of s k) = Escapes ZeroDivisionError
  ∧ position (epoch_of s k) = S k
  ∧ session_of (epoch_of s k) = s'.
Proof.
  intros Hv Hn Hgen Hrun.
  by rewrite (run_epoch_verbose_small s k b s' c st').
Qed.

Lemma for_step_returns n s k st costs iters :
  (∀ j, j < n → ∃ b, generator (k + j) = Next b) →
  (∀ s0 st0 b, ∃ out, session_run s0 model eval_op st0 b = inr out) →
  verbose = false →
  let e := loop n s k st costs iters in
  length (runs e) = n
  ∧ position e = k + n
  ∧ ending_of e
    = Returns (perplexity (foldl cost_add costs (cost_out <$> runs e))
                          (iters + n * steps)).
Proof.
  intros Hgen Hrun ->. revert s k st costs iters Hgen.
  induction n as [|n IH]; intros s k st costs iters Hgen; cbn.
  - split_and!; [done|lia|]. do 2 f_equal. lia.
  - destruct (Hgen 0) as [b Hb]; [lia|]. rewrite Nat.add_0_r in Hb.
    rewrite Hb.
    destruct (Hrun s st b) as [[s' [c st']] ->]. cbn.
    destruct (IH s' (S k) st' (cost_add costs c) (iters + steps))
      as (Hl & Hp & He).
    { intros j Hj. destruct (Hgen (S j)) as [b' Hb']; [lia|].
      exists b'. by rewrite <- Hb', Nat.add_succ_comm. }
    split_and!; [by rewrite Hl|lia|].
    rewrite He. do 2 f_equal. lia.
Qed.

(** X14. When [epoch_size] is positive, the generator yields at each draw,
    the engine does not raise and nothing is printed, [run_epoch] makes
    [epoch_size] runs, leaves the generator [epoch_size] draws further and
    returns the perplexity of the sum of the costs over
    [epoch_size * num_steps] steps. *)
Theorem run_epoch_returns_perplexity s k :
  (0 < epoch_size)%Z →
  (∀ j, j < Z.to_nat epoch_size → ∃ b, generator (k + j) = Next b) →
  (∀ s0 st0 b, ∃ out, session_run s0 model eval_op st0 b = inr out) →
  verbose = false →
  length (runs (epoch_of s k)) = Z.to_nat epoch_size
  ∧ position (epoch_of s k) = k + Z.to_nat epoch_size
  ∧ ending_of (epoch_of s k)
    = Returns (perplexity
                 (foldl cost_add cost_zero (cost_out <$> runs (epoch_of s k)))
                 (Z.to_nat epoch_size * steps)).
Proof.
  intros Hn Hgen Hrun Hv. unfold run_epoch.
  destruct (Z.to_nat epoch_size) as [|n] eqn:Hsz; [lia|].
  by apply for_step_returns.
Qed.

Lemma for_step_stops n s k st costs iters j :
  j < n →
  (∀ i, i < j → ∃ b, generator (k + i) = Next b) →
  (∀ b, generator (k + j) ≠ Next b) →
  (∀ s0 st0 b, ∃ out, session_run s0 model eval_op st0 b = inr out) →
  verbose = false →
  let e := loop n s k st costs iters in
  length (runs e) = j
  ∧ position e = k + j
  ∧ ending_of e = match generator (k + j) with
                  | Throws e => Escapes e
                  | _ => Hangs
                  end.
Proof.
  intros Hj Hgen Hstop Hrun ->. revert n s k st costs iters Hj Hgen Hstop.
  induction j as [|j IH]; intros n s k st costs iters Hj Hgen Hstop;
    (destruct n as [|n]; [lia|]); cbn.
  - rewrite Nat.add_0_r in *.
    destruct (generator k) as [b|e|] eqn:Hk; [by destruct (Hstop b)|done..].
  - destruct (Hgen 0) as [b Hb]; [lia|]. rewrite Nat.add_0_r in Hb.
    rewrite Hb.
    destruct (Hrun s st b) as [[s' [c st']] ->]. cbn.
    destruct (IH n s' (S k) st' (cost_add costs c) (iters + steps))
      as (Hl & Hp & He).
    { lia. }
    { intros i Hi. destruct (Hgen (S i)) as [b' Hb']; [lia|].
      exists b'. by rewrite <- Hb', Nat.add_succ_comm. }
    { intros b'. rewrite Nat.add_succ_comm. apply Hstop. }
    split_and!; [by rewrite Hl|lia|].
    rewrite He. by rewrite Nat.add_succ_comm.
Qed.

(** X15. When draw number [j] of the epoch does not yield, the epoch stops
    there with the [j] runs it made: an exception of the generator escapes
    from [run_epoch], and a generator that never yields makes it wait for
    ever. *)
Theorem run_epoch_stops_with_generator s k j :
  j < Z.to_nat epoch_size →
  (∀ i, i < j → ∃ b, generator (k + i) = Next b) →
  (∀ b, generator (k + j) ≠ Next b) →
  (∀ s0 st0 b, ∃ out, session_run s0 model eval_op st0 b = inr out) →
  verbose = false →
  length (runs (epoch_of s k)) = j
  ∧ position (epoch_of s k) = k + j
  ∧ ending_of (epoch_of s k) = match generator (k + j) with
                               | Throws e => Escapes e
                               | _ => Hangs
                               end.
Proof.
  intros Hj Hgen Hstop Hrun Hv. unfold run_epoch.
  destruct (Z.to_nat epoch_size) as [|n] eqn:Hsz; [lia|].
  by apply for_step_stops.
Qed.

End EpochFacts.

(** * More on the configuration and on the training loop *)

Ltac in_list :=
  repeat first [apply list_elem_of_here | apply list_elem_of_further].

Lemma get_config_inv model c :
  get_config model = inr c →
  (model, c) ∈ [("small", SmallConfig); ("medium", MediumConfig);
                ("large", LargeConfig); ("test", TestConfig)].
Proof.
  unfold get_config.
  destruct (String.eqb model "small") eqn:H1.
  { apply String.eqb_eq in H1 as ->. intros [= <-]. in_list. }
  destruct (String.eqb model "medium") eqn:H2.
  { apply String.eqb_eq in H2 as ->. intros [= <-]. in_list. }
  destruct (String.eqb model "large") eqn:H3.
  { apply String.eqb_eq in H3 as ->. intros [= <-]. in_list. }
  destruct (String.eqb model "test") eqn:H4.
  { apply String.eqb_eq in H4 as ->. intros [= <-]. in_list. }
  done.
Qed.



Lemma total_words files n :
  foldl (λ total (file : list Z), total + length file) n files
  = n + sum_list (length <$> files).
Proof.
  revert n. induction files as [|f files IH]; intros n; cbn; [lia|].
  rewrite IH. lia.
Qed.

Lemma get_epoch_size_bounds files c e :
  get_epoch_size files c = inr e →
  let batch_len :=
    Z.of_nat (sum_list (length <$> files) / Config.batch_size c) in
  let ns := Z.of_nat (Config.num_steps c) in
  Config.batch_size c ≠ 0 ∧ Config.num_steps c ≠ 0
  ∧ (ns * e + 1 ≤ batch_len < ns * (e + 1) + 1)%Z.
Proof.
  intros He batch_len ns. unfold get_epoch_size in He.
  rewrite total_words in He. cbn [Nat.add] in He. fold batch_len ns in He.
  destruct (Config.batch_size c =? 0) eqn:Hb; [done|].
  destruct (Config.num_steps c =? 0) eqn:Hn; [done|].
  apply Nat.eqb_neq in Hb, Hn. injection He as <-.
  assert (0 < ns)%Z as Hpos by lia.
  pose proof (Z.div_mod (batch_len - 1) ns ltac:(lia)) as Hdm.
  pose proof (Z.mod_pos_bound (batch_len - 1) ns Hpos) as Hmod.
  split_and!; [done|done|lia|lia].
Qed.

(** X17. [get_epoch_size] raises [ZeroDivisionError] exactly when
    [batch_size] or [num_steps] is zero; otherwise its value [e] is the floor
    of [(total // batch_size - 1) / num_steps], where [total] is the number of
    tokens of all files: it does not depend on how the tokens are spread over
    the files, and it is [-1] when there are fewer than [batch_size]
    tokens. *)
Theorem get_epoch_size_spec files c :
  let total := sum_list (length <$> files) in
  let batch_len := Z.of_nat (total / Config.batch_size c) in
  let ns := Z.of_nat (Config.num_steps c) in
  match get_epoch_size files c with
  | inl e => e = ZeroDivisionError
             ∧ (Config.batch_size c = 0 ∨ Config.num_steps c = 0)
  | inr e => Config.batch_size c ≠ 0 ∧ Config.num_steps c ≠ 0
             ∧ (ns * e + 1 ≤ batch_len < ns * (e + 1) + 1)%Z
             ∧ (total < Config.batch_size c → e = (-1)%Z)
  end.
Proof.
  intros total batch_len ns.
  destruct (get_epoch_size files c) as [e|e] eqn:He.
  - unfold get_epoch_size in He.
    destruct (Config.batch_size c =? 0) eqn:Hb.
    { apply Nat.eqb_eq in Hb. injection He as <-. auto. }
    destruct (Config.num_steps c =? 0) eqn:Hn; [|done].
    apply Nat.eqb_eq in Hn. injection He as <-. auto.
  - destruct (get_epoch_size_bounds _ _ _ He) as (Hb & Hn & Hbounds).
    fold total batch_len ns in Hbounds.
    split_and!; [done|done|lia|lia|].
    intros Hsmall. subst batch_len.
    rewrite Nat.div_small in Hbounds by done. nia.
Qed.

Section Estimate.

Variable scalar : Type.
Variable embeddings : gmap Z (entry scalar).
Variable args : gen_args.

Abbreviation bs := (batch_size args).
Abbreviation ns := (num_steps args).

(** A file that yields [n >= 1] batches has at least [n * num_steps + 1]
    columns. *)
Lemma file_batches_columns raw :
  let n := length (file_batches embeddings args raw).1 in
  n = 0 ∨ (1 ≤ bs ∧ 1 ≤ ns ∧ n * ns + 1 ≤ length raw / bs).
Proof.
  intros n. destruct n as [|n'] eqn:Hn; [by left|right].
  destruct (lookup_lt_is_Some_2 (file_batches embeddings args raw).1 n')
    as [[x y] Hk]; [fold n; lia|].
  apply file_batches_lookup in Hk as (_ & _ & ? & ? & _ & _ & Hfit & _).
  split_and!; [done|done|nia].
Qed.

Lemma for_files_columns files :
  let n := length (for_files embeddings args files).1 in
  n = 0 ∨ (1 ≤ bs ∧ 1 ≤ ns
           ∧ n * ns + 1 ≤ sum_list ((λ raw, length raw / bs) <$> files)).
Proof.
  induction files as [|raw files IH]; cbn; [by left|].
  pose proof (file_batches_columns raw) as Hraw. cbn in Hraw, IH.
  destruct (file_batches _ _ raw) as [bs' [|e]]; cbn in *.
  - destruct (for_files _ _ files) as [bs'' o]. cbn in *.
    rewrite length_app.
    destruct Hraw as [->|(?&?&?)], IH as [->|(?&?&?)]; [by left|right..];
      (split_and!; [done|done|nia]).
  - destruct Hraw as [->|(?&?&?)]; [by left|right].
    split_and!; [done|done|lia].
Qed.

Lemma sum_batch_len files :
  1 ≤ bs →
  sum_list ((λ raw : list Z, length raw / bs) <$> files)
  ≤ sum_list (length <$> files) / bs.
Proof.
  intros Hbs. apply Nat.div_le_lower_bound; [lia|].
  induction files as [|raw files IH]; cbn; [lia|].
  pose proof (Nat.Div0.mul_div_le (length raw) bs). lia.
Qed.

(** X18. One pass over the files never yields more batches than
    [get_epoch_size] estimates for them with the same [batch_size] and
    [num_steps] (a negative estimate counting as zero): an epoch of
    [epoch_size] draws always reaches the end of a pass. *)
Theorem pass_within_epoch_size files c e :
  bs = Config.batch_size c →
  ns = Config.num_steps c →
  get_epoch_size files c = inr e →
  (Z.of_nat (length (for_files embeddings args files).1) ≤ Z.max 0 e)%Z.
Proof.
  intros Hb Hn He.
  destruct (get_epoch_size_bounds _ _ _ He) as (Hbs & Hns & [_ Hup]).
  destruct (for_files_columns files) as [->|(_ & _ & Hcols)]; [lia|].
  pose proof (sum_batch_len files ltac:(lia)) as Hsum.
  rewrite Hb in Hsum, Hcols. rewrite Hn in Hcols.
  set (n := length (for_files embeddings args files).1) in *.
  set (bl := sum_list (length <$> files) / Config.batch_size c) in *.
  assert (n * Config.num_steps c + 1 ≤ bl) as Hle by lia.
  apply Z.max_le_iff. right. nia.
Qed.

End Estimate.

(** X19. [eval_config] is an instance of its own: after the setup,
    [config] still has the preset's [batch_size] and [num_steps], and
    [eval_config] has 1 for both, the preset's [embedding_size], and the
    number of test tokens minus one as its [epoch_size]. *)
Theorem eval_config_is_separate model tr va te su c :
  main_setup model tr va te = inr su →
  get_config model = inr c →
  eval_config_ref su ≠ config_ref su
  ∧ getattr (config_ref su) Config.batch_size (store su) = Config.batch_size c
  ∧ getattr (config_ref su) Config.num_steps (store su) = Config.num_steps c
  ∧ getattr (eval_config_ref su) Config.batch_size (store su) = 1
  ∧ getattr (eval_config_ref su) Config.num_steps (store su) = 1
  ∧ getattr (eval_config_ref su) Config.embedding_size (store su)
    = Config.embedding_size c
  ∧ getattr (eval_config_ref su) Config.epoch_size (store su)
    = (Z.of_nat (sum_list (length <$> te)) - 1)%Z.
Proof.
  intros Hsu Hc.
  pose proof (main_setup_inv _ _ _ _ _ Hsu)
    as (c' & et & ev & ee & Hc' & _ & _ & Hee & -> & _ & -> & H0 & H1 & _).
  assert (c' = c) as -> by congruence.
  unfold getattr.
  rewrite (lookup_total_correct _ _ _ H0), (lookup_total_correct _ _ _ H1).
  cbn. split_and!; [done..|].
  destruct (get_epoch_size_bounds _ _ _ Hee) as (_ & _ & Hb).
  cbn [Config.batch_size Config.num_steps Config.set_num_steps
       Config.set_batch_size] in Hb.
  rewrite Nat.div_1_r in Hb. lia.
Qed.


Section LoopFacts.

Variable scalar : Type.
Variables session state cost : Type.
Variable zero_state : WPModel → state.
Variable session_run :
  session → WPModel → bool → state → batch scalar →
  result (session * (cost * state)).
Variable assign_lr : session → nat → session.
Variable cost_zero : cost.
Variable cost_add : cost → cost → cost.
Variable perplexity : cost → nat → cost.
Variable su : setup.
Variables gen_train gen_valid gen_test : nat → drawn scalar.

Abbreviation epochs :=
  (for_epoch scalar session state cost zero_state session_run assign_lr
             cost_zero cost_add perplexity su gen_train gen_valid).
Abbreviation the_loop :=
  (main_loop scalar session state cost zero_state session_run assign_lr
             cost_zero cost_add perplexity su gen_train gen_valid gen_test).
Abbreviation epoch_at :=
  (run_epoch zero_state session_run cost_zero cost_add perplexity (store su)).

(** The call of [run_epoch] that [main] makes for a role, from the session
    [s] and the generator position [k]. *)
Abbreviation call r s k :=
  (match r with
   | Train => epoch_at gen_train (m su) true true s k
   | Valid => epoch_at gen_valid (mvalid su) false false s k
   | Test => epoch_at gen_test (mtest su) false false s k
   end).

Lemma for_epoch_first n i s kt kv r e :
  (epochs n i s kt kv).1 !! 0 = Some (r, e) →
  r = Train ∧ ∃ s', e = call Train s' kt.
Proof.
  destruct n as [|n]; cbn; [done|].
  destruct (returns _ _ _ _ _); [destruct (returns _ _ _ _ _)|];
    [destruct (epochs n _ _ _ _)|..]; cbn; intros [= <- <-]; eauto.
Qed.

Lemma for_epoch_second n i s kt kv r e :
  (epochs n i s kt kv).1 !! 1 = Some (r, e) →
  r = Valid ∧ ∃ s', e = call Valid s' kv.
Proof.
  destruct n as [|n]; cbn; [done|].
  destruct (returns _ _ _ _ _); [destruct (returns _ _ _ _ _)|];
    [destruct (epochs n _ _ _ _)|..]; cbn; [| |done]; intros [= <- <-]; eauto.
Qed.

Lemma for_epoch_role n i s kt kv j r e :
  (epochs n i s kt kv).1 !! j = Some (r, e) → r ≠ Test.
Proof.
  revert i s kt kv j. induction n as [|n IH]; intros i s kt kv j; cbn; [done|].
  destruct (returns _ _ _ _ _); [destruct (returns _ _ _ _ _)|].
  - destruct (epochs n _ _ _ _) as [log so] eqn:Hrec. cbn.
    destruct j as [|[|j]]; cbn; [by intros [= <- _]..|].
    intros Hj. eapply (IH _ _ _ _ j). by rewrite Hrec.
  - destruct j as [|[|j]]; cbn; [by intros [= <- _]..|done].
  - destruct j as [|j]; cbn; [by intros [= <- _]|done].
Qed.

(** Two epochs of one role that follow each other in the loop: the second
    starts at the generator position the first one left. *)
Lemma for_epoch_thread n i s kt kv j r e1 r' e2 :
  (epochs n i s kt kv).1 !! j = Some (r, e1) →
  (epochs n i s kt kv).1 !! S (S j) = Some (r', e2) →
  r' = r ∧ ∃ s', e2 = call r s' (position e1).
Proof.
  revert i s kt kv j. induction n as [|n IH]; intros i s kt kv j; cbn; [done|].
  destruct (returns _ _ _ _ _); [destruct (returns _ _ _ _ _)|].
  - destruct (epochs n _ _ _ _) as [log so] eqn:Hrec. cbn.
    destruct j as [|[|j]]; cbn.
    + intros [= <- <-] H2.
      assert ((epochs n (S i) _ _ _).1 !! 0 = Some (r', e2)) as H2'
        by (by rewrite Hrec).
      by apply for_epoch_first in H2' as [-> ?].
    + intros [= <- <-] H2.
      assert ((epochs n (S i) _ _ _).1 !! 1 = Some (r', e2)) as H2'
        by (by rewrite Hrec).
      by apply for_epoch_second in H2' as [-> ?].
    + intros H1 H2. eapply (IH _ _ _ _ j); by rewrite Hrec.
  - by destruct j as [|[|j]].
  - by destruct j as [|j].
Qed.

(** X21. The generators are not restarted between epochs: of two
    consecutive epochs of one role in the log of [main]'s loop, the second is
    the call of [run_epoch] that starts at the generator position where the
    first one stopped. *)
Theorem epochs_continue_generator s j r e1 e2 :
  let entries := main_loop scalar session state cost zero_state session_run
               assign_lr cost_zero cost_add perplexity su
               gen_train gen_valid gen_test s in
  entries !! j = Some (r, e1) →
  entries !! S (S j) = Some (r, e2) →
  ∃ s', e2 = call r s' (position e1).
Proof.
  intros entries. unfold entries, main_loop. clear entries.
  set (n := getattr (config_ref su) Config.max_max_epoch (store su)).
  destruct (epochs n 0 s 0 0) as [log [s'|]] eqn:Hlog.
  - intros H1 H2.
    assert (S (S j) < length log) as Hj.
    { destruct (decide (S (S j) < length log)) as [|Hge]; [done|].
      rewrite lookup_app_r in H2 by lia.
      destruct (S (S j) - length log) as [|d] eqn:Hd; [|done].
      cbn in H2. injection H2 as <- _.
      rewrite lookup_app_l in H1 by lia.
      assert ((epochs n 0 s 0 0).1 !! j = Some (Test, e1)) as H1'
        by (by rewrite Hlog).
      by apply for_epoch_role in H1'. }
    rewrite lookup_app_l in H1, H2 by lia.
    destruct (for_epoch_thread n 0 s 0 0 j r e1 r e2) as [_ ?];
      [by rewrite Hlog..|done].
  - intros H1 H2.
    destruct (for_epoch_thread n 0 s 0 0 j r e1 r e2) as [_ ?];
      [by rewrite Hlog..|done].
Qed.

(** X22. When the validation list gives an [epoch_size] from 1 to 9, the
    first training epoch runs the engine on one batch and raises
    [ZeroDivisionError] from the progress report: [main] stops there, without
    a validation or a test epoch. The training model reads the validation
    epoch size because [valid_config] is [config]. *)
Theorem small_validation_epoch_stops_training
  model tr va te c ev s b s' c0 st' :
  main_setup model tr va te = inr su →
  get_config model = inr c →
  get_epoch_size va c = inr ev →
  (1 ≤ ev < 10)%Z →
  gen_train 0 = Next b →
  session_run (assign_lr s 0) (m su) true (zero_state (m su)) b
  = inr (s', (c0, st')) →
  the_loop s
  = [ (Train,
       {| runs := [ {| fed_state := zero_state (m su); fed_batch := b;
                       cost_out := c0; final_state := st' |} ];
          ending_of := Escapes ZeroDivisionError;
          position := 1;
          session_of := s' |}) ].
Proof.
  intros Hsu Hc Hev Hsmall Hgen Hrun.
  pose proof (main_setup_inv _ _ _ _ _ Hsu)
    as (c' & et & ev' & ee & Hc' & _ & Hev' & _ & Hr & _ & _ & H0 & _ & _
        & Hm & _).
  assert (c' = c) as -> by congruence.
  assert (ev' = ev) as -> by congruence.
  assert (getattr (config (m su)) Config.epoch_size (store su) = ev) as Hsz.
  { rewrite Hm. unfold getattr. cbn.
    by rewrite (lookup_total_correct _ _ _ H0). }
  assert (∃ n, getattr (config_ref su) Config.max_max_epoch (store su) = S n)
    as [n Hn].
  { rewrite Hr. unfold getattr. rewrite (lookup_total_correct _ _ _ H0). cbn.
    pose proof (get_config_inv _ _ Hc) as Hp.
    repeat (apply elem_of_cons in Hp as [[= _ ->]|Hp]);
      [cbn; eauto..|by apply elem_of_nil in Hp]. }
  unfold main_loop. rewrite Hn. cbn.
  rewrite (run_epoch_verbose_small scalar session state cost zero_state
             session_run cost_zero cost_add perplexity (store su) gen_train
             (m su) true true (assign_lr s 0) 0 b s' c0 st');
    [done|done|by rewrite Hsz|done|done].
Qed.

End LoopFacts.

(** * The added properties at concrete inputs *)

(** Decides [covers] for a concrete store and concrete ids. *)
Ltac covered :=
  unfold covers;
  repeat (apply Forall_cons; split;
          [eexists; split; [reflexivity|reflexivity]|]);
  constructor.

Lemma sample_covers_seven :
  covers Sample.store (GenArgs 2 1 1) [1; 2; 3; 4; 5; 6; 7]%Z.
Proof. covered. Qed.

Lemma sample_covers_four :
  covers Sample.store (GenArgs 2 2 1) [1; 2; 3; 4]%Z.
Proof. covered. Qed.

(** X1, on the file [1 2 3 4 5 6 7] with [batch_size = 1] and
    [num_steps = 2]: batch 1 exists, its window is cut at column 4. *)
Lemma batch_exists_iff_window_fits_witness :
  1 ≤ 1 ∧ 1 ≤ 2
  ∧ covers Sample.store (GenArgs 2 1 1) [1; 2; 3; 4; 5; 6; 7]%Z
  ∧ (is_Some ((file_batches Sample.store (GenArgs 2 1 1)
                 [1; 2; 3; 4; 5; 6; 7]%Z).1 !! 1)
     ↔ 1 * 2 * 2 + 2 + 1 ≤ 7).
Proof.
  split_and!; [lia|lia|exact sample_covers_seven|].
  exact (batch_exists_iff_window_fits Z Sample.store (GenArgs 2 1 1)
           [1; 2; 3; 4; 5; 6; 7]%Z ltac:(cbn; lia) ltac:(cbn; lia)
           sample_covers_seven 1).
Defined.

(** X2, on the file [1 2 3 4] with [batch_size = 2] and [num_steps = 2]. *)
Lemma target_overrun_raises_after_witness :
  0 * 2 + 2 < 4 ∧ 4 / 2 = 0 * 2 * 2 + 2
  ∧ length (file_batches Sample.store (GenArgs 2 2 1) [1; 2; 3; 4]%Z).1 = 0
  ∧ (file_batches Sample.store (GenArgs 2 2 1) [1; 2; 3; 4]%Z).2
    = Raised ValueError.
Proof.
  split_and!; [lia|reflexivity|..];
    apply (target_overrun_raises_after Z Sample.store (GenArgs 2 2 1)
             [1; 2; 3; 4]%Z ltac:(cbn; lia) ltac:(cbn; lia)
             sample_covers_four 0 ltac:(cbn; lia) ltac:(reflexivity)).
Defined.

(** X3, on the file [1 2 3 4 5 6 7] with [batch_size = 1] and
    [num_steps = 2]. *)
Lemma file_ends_normally_witness :
  (∀ k, k * 2 + 2 < 7 → 7 ≠ k * 2 * 2 + 2)
  ∧ (file_batches Sample.store (GenArgs 2 1 1) [1; 2; 3; 4; 5; 6; 7]%Z).2
    = Done.
Proof.
  assert (∀ k, k * 2 + 2 < 7 → 7 ≠ k * 2 * 2 + 2) as Hno by (intros; lia).
  split; [exact Hno|].
  exact (file_ends_normally Z Sample.store (GenArgs 2 1 1)
           [1; 2; 3; 4; 5; 6; 7]%Z ltac:(cbn; lia) ltac:(cbn; lia)
           sample_covers_seven Hno).
Defined.

(** X4, on the file [11 1 2], whose first id has no entry. *)
Lemma first_token_lookup_error_witness :
  embed Sample.store 11%Z = inl KeyError
  ∧ file_batches Sample.store (GenArgs 1 1 1) [11; 1; 2]%Z
    = ([], Raised KeyError).
Proof.
  assert (embed Sample.store 11%Z = inl KeyError) as He by reflexivity.
  split; [exact He|].
  exact (first_token_lookup_error Z Sample.store (GenArgs 1 1 1) 11%Z
           [1; 2]%Z KeyError ltac:(cbn; lia) ltac:(cbn; lia) ltac:(cbn; lia)
           ltac:(cbn; lia) He).
Defined.

(** X5, on the file [1 2 ... 10] with [batch_size = 2]. *)
Lemma file_data_row_major_witness :
  ∃ data,
    file_data (GenArgs 2 2 1) [1; 2; 3; 4; 5; 6; 7; 8; 9; 10]%Z = inr data
    ∧ at2 data 1 2 = Some 8%Z.
Proof.
  destruct (file_data_row_major (GenArgs 2 2 1)
              [1; 2; 3; 4; 5; 6; 7; 8; 9; 10]%Z ltac:(cbn; lia))
    as (data & Hdata & _ & Hat).
  exists data. split; [exact Hdata|].
  destruct (Hat 1 2 ltac:(cbn; lia) ltac:(cbn; lia)) as [-> _].
  reflexivity.
Defined.

Lemma sample_batch_drawn :
  ([[[5]; [6]]]%Z, [[6; 7]]%Z)
  ∈ (generate_arrays_from_list Sample.store (GenArgs 2 1 1) 1
       [[1; 2; 3; 4; 5; 6; 7]%Z]).1.
Proof. vm_compute. right. left. Qed.

(** X6, on the second batch of the file [1 2 3 4 5 6 7]. *)
Lemma yielded_batches_have_shape_witness :
  has_shape3 (1, 2, 1) [[[5]; [6]]]%Z ∧ has_shape2 (1, 2) [[6; 7]]%Z.
Proof.
  destruct (yielded_batches_have_shape Z Sample.store (GenArgs 2 1 1) 1
              [[1; 2; 3; 4; 5; 6; 7]%Z] _ _ sample_batch_drawn)
    as (_ & _ & Hx & Hy).
  exact (conj Hx Hy).
Defined.


(** X8, on two files that end normally. *)
Lemma pass_yields_files_in_order_witness :
  for_files Sample.store (GenArgs 1 1 1) [[1; 2; 3]; [7; 8]]%Z
  = ([ ([[[1]]], [[2]]); ([[[2]]], [[3]]); ([[[7]]], [[8]]) ]%Z, Done).
Proof.
  rewrite (pass_yields_files_in_order Z Sample.store (GenArgs 1 1 1)
             [[1; 2; 3]; [7; 8]]%Z).
  - reflexivity.
  - repeat (apply Forall_cons; split; [reflexivity|]). constructor.
Defined.

(** X9, on the file [1 2 3 4]: draw 3 is batch 0 again. *)
Lemma generator_cycles_witness :
  next Sample.store (GenArgs 1 1 1) 4 [[1; 2; 3; 4]%Z] 3
  = Next ([[[1%Z]]], [[2%Z]]).
Proof.
  exact (generator_cycles Z Sample.store (GenArgs 1 1 1)
           [ ([[[1]]], [[2]]); ([[[2]]], [[3]]); ([[[3]]], [[4]]) ]%Z
           4 [[1; 2; 3; 4]%Z] 1 0 _ ltac:(reflexivity) ltac:(reflexivity)
           ltac:(lia)).
Defined.

(** X10, on a list whose only file is smaller than [batch_size]. *)
Lemma generator_spins_without_batches_witness :
  next Sample.store (GenArgs 2 5 1) 3 [[1; 2; 3]%Z] 0 = Spinning.
Proof.
  exact (generator_spins_without_batches Z Sample.store (GenArgs 2 5 1) 3
           [[1; 2; 3]%Z] 0 ltac:(reflexivity)).
Defined.


(** [undersized_file_skipped], on a file of one token with
    [batch_size = 2]. *)
Lemma undersized_file_skipped_witness :
  file_batches Sample.store4 (GenArgs 1 2 1) [5%Z] = ([], Done).
Proof.
  exact (undersized_file_skipped Z Sample.store4 (GenArgs 1 2 1) [5%Z]
           ltac:(cbn; lia) ltac:(cbn; lia)).
Defined.

(** X18, at the preset [test] and one file of 30 tokens: the pass yields one
    batch and the estimate is 1. *)
Lemma pass_within_epoch_size_witness :
  get_epoch_size [replicate 30 1%Z] TestConfig = inr 1%Z
  ∧ (Z.of_nat (length (for_files Sample.store200 (GenArgs 2 10 200)
                         [replicate 30 1%Z]).1) ≤ Z.max 0 1)%Z.
Proof.
  assert (get_epoch_size [replicate 30 1%Z] TestConfig = inr 1%Z) as He
    by (by vm_compute).
  split; [exact He|].
  exact (pass_within_epoch_size Z Sample.store200 (GenArgs 2 10 200)
           [replicate 30 1%Z] TestConfig 1%Z ltac:(reflexivity)
           ltac:(reflexivity) He).
Defined.

(** X19, at the preset [test] with a test file of 30 tokens. *)
Lemma eval_config_is_separate_witness :
  ∃ su,
    main_setup "test" [] [] [replicate 30 1%Z] = inr su
    ∧ getattr (config_ref su) Config.batch_size (store su) = 10
    ∧ getattr (eval_config_ref su) Config.batch_size (store su) = 1
    ∧ getattr (eval_config_ref su) Config.epoch_size (store su) = 29%Z.
Proof.
  destruct (main_setup "test" [] [] [replicate 30 1%Z]) as [e|su] eqn:Hsu;
    [by vm_compute in Hsu|].
  exists su.
  destruct (eval_config_is_separate "test" [] [] [replicate 30 1%Z] su
              TestConfig Hsu ltac:(reflexivity))
    as (_ & Hb & _ & Hb1 & _ & _ & He).
  split_and!; [done|exact Hb|exact Hb1|].
  rewrite He. by vm_compute.
Defined.


(** X13, on the sample configuration (an epoch of two batches) with
    [verbose]. *)
Lemma verbose_small_epoch_raises_witness :
  let e := run_epoch Sample.zero_state Sample.session_run 0 Nat.add
             Sample.perplexity Sample.heap Sample.gen_valid Sample.mvalid
             true true tt 0 in
  length (runs e) = 1 ∧ ending_of e = Escapes ZeroDivisionError
  ∧ position e = 1.
Proof.
  intros e.
  destruct (verbose_small_epoch_raises Z unit nat nat Sample.zero_state
              Sample.session_run 0 Nat.add Sample.perplexity Sample.heap
              Sample.gen_valid Sample.mvalid true true tt 0
              ([[[1%Z]]], [[2%Z]]) tt 0 1
              ltac:(reflexivity) ltac:(by vm_compute) ltac:(by vm_compute)
              ltac:(reflexivity)) as (Hr & He & Hp & _).
  fold e in Hr, He, Hp. rewrite Hr. done.
Defined.

(** X14, on the sample configuration: two runs, position 2. *)
Lemma run_epoch_returns_perplexity_witness :
  length (runs (Sample.valid_epoch 0)) = 2
  ∧ position (Sample.valid_epoch 0) = 2
  ∧ ending_of (Sample.valid_epoch 0) = Returns 0.
Proof.
  destruct (run_epoch_returns_perplexity Z unit nat nat Sample.zero_state
              Sample.session_run 0 Nat.add Sample.perplexity Sample.heap
              Sample.gen_valid Sample.mvalid false false tt 0)
    as (Hl & Hp & He).
  - by vm_compute.
  - intros j Hj. change (Z.to_nat _) with 2 in Hj.
    destruct j as [|[|j]]; [eexists; by vm_compute..|lia].
  - intros s0 st0 b. eexists. reflexivity.
  - reflexivity.
  - split_and!; [exact Hl|exact Hp|].
    unfold Sample.valid_epoch. rewrite He. by vm_compute.
Defined.

(** X15, on a generator whose first draw raises. *)
Lemma run_epoch_stops_with_generator_witness :
  let gen := next Sample.store (GenArgs 2 2 1) 1 [[1; 2; 3; 4]%Z] in
  let e := run_epoch Sample.zero_state Sample.session_run 0 Nat.add
             Sample.perplexity Sample.heap gen Sample.mvalid
             false false tt 0 in
  gen 0 = Throws ValueError
  ∧ length (runs e) = 0 ∧ ending_of e = Escapes ValueError.
Proof.
  intros gen e.
  assert (gen 0 = Throws ValueError) as Hgen by (by vm_compute).
  split; [exact Hgen|].
  destruct (run_epoch_stops_with_generator Z unit nat nat Sample.zero_state
              Sample.session_run 0 Nat.add Sample.perplexity Sample.heap
              gen Sample.mvalid false false tt 0 0)
    as (Hl & _ & He).
  - vm_compute. lia.
  - intros i Hi. lia.
  - intros b. cbn [Nat.add]. by rewrite Hgen.
  - intros s0 st0 b. eexists. reflexivity.
  - reflexivity.
  - split; [exact Hl|]. unfold e. rewrite He. cbn [Nat.add]. by rewrite Hgen.
Defined.

(** X21, on the sample loop: the second training epoch starts at position
    10, where the first one stopped, with the batch [2 -> 3]. *)
Lemma epochs_continue_generator_witness :
  ∃ e1 e2 r,
    SampleLoop.loop_ten !! 0 = Some (Train, e1)
    ∧ SampleLoop.loop_ten !! 2 = Some (Train, e2)
    ∧ position e1 = 10
    ∧ runs e2 !! 0 = Some r
    ∧ fed_batch r = ([[[2%Z]]], [[3%Z]]).
Proof.
  destruct (SampleLoop.loop_ten !! 0) as [[r1 e1]|] eqn:H1;
    [|by vm_compute in H1].
  destruct (SampleLoop.loop_ten !! 2) as [[r2 e2]|] eqn:H2;
    [|by vm_compute in H2].
  assert (r1 = Train) as -> by (vm_compute in H1; congruence).
  assert (r2 = Train) as -> by (vm_compute in H2; congruence).
  assert (position e1 = 10) as Hp.
  { vm_compute in H1. by injection H1 as <-. }
  destruct (epochs_continue_generator Z unit nat nat Sample.zero_state
              Sample.session_run SampleLoop.assign_lr 0 Nat.add
              Sample.perplexity SampleLoop.setup_ten SampleLoop.gen_ten
              SampleLoop.gen_ten SampleLoop.gen_ten tt 0 Train e1 e2 H1 H2)
    as [s' He2].
  rewrite Hp in He2. destruct s'.
  exists e1, e2,
    {| fed_state := 0; fed_batch := ([[[2%Z]]], [[3%Z]]);
       cost_out := 0; final_state := 1 |}.
  split_and!; [done|done|done| |done].
  rewrite He2. by vm_compute.
Defined.

(** X22, at the preset [test] with a validation file of 50 tokens (an
    epoch size of 2) and a training file of 30 tokens. *)
Lemma small_validation_epoch_stops_training_witness :
  let tr := [replicate 30 1%Z] in
  let va := [replicate 50 1%Z] in
  ∃ su b,
    main_setup "test" tr va [] = inr su
    ∧ get_epoch_size va TestConfig = inr 2%Z
    ∧ next Sample.store200 (gen_train_args su) 1 tr 0 = Next b
    ∧ length (main_loop Z unit nat nat Sample.zero_state Sample.session_run
                SampleLoop.assign_lr 0 Nat.add Sample.perplexity su
                (next Sample.store200 (gen_train_args su) 1 tr)
                (next Sample.store200 (gen_valid_args su) 1 va)
                (next Sample.store200 (gen_test_args su) 1 []) tt) = 1.
Proof.
  intros tr va.
  destruct (main_setup "test" tr va []) as [e|su] eqn:Hsu;
    [by vm_compute in Hsu|].
  assert (get_epoch_size va TestConfig = inr 2%Z) as Hev by (by vm_compute).
  destruct (next Sample.store200 (gen_train_args su) 1 tr 0) as [b|e|] eqn:Hb;
    [|vm_compute in Hsu; injection Hsu as <-; by vm_compute in Hb..].
  exists su, b. split_and!; [done|done|done|].
  rewrite (small_validation_epoch_stops_training Z unit nat nat
             Sample.zero_state Sample.session_run SampleLoop.assign_lr 0 Nat.add
             Sample.perplexity su _ _ _ "test" tr va [] TestConfig 2%Z tt b
             tt 0 1 Hsu ltac:(reflexivity) Hev ltac:(lia) Hb
             ltac:(reflexivity)).
  reflexivity.
Defined.
